(** * ngl_resum: the two documented drivers (docs/resummator_dipole.ipynb and
    docs/resummator_lhe.ipynb)

    The repository's sources are the two notebooks.  Their code cells are
    embedded below as Rocq functions: [validEvent], the two [_outside]
    predicates, the event loop, the normalisation cell and the display cells.
    The package [ngl_resum] itself (FourVector, Event, Hist, OutsideRegion,
    Shower) is imported by the notebooks, not defined in them: its objects
    are records holding the attributes the notebooks read, its methods are
    the fields of a type class, and the few library behaviours that are
    needed in closed form are marked "Modelled from the spec".

    Python floats are idealised as exact rationals ([Q]); comparisons are the
    decidable ones of [QArith]. *)

From Stdlib Require Import QArith Qabs Qround ZArith List String Bool Lia Lqa.
Import ListNotations.
Open Scope Q_scope.

(** ** Python numbers and control flow *)

Definition Qlt_bool (x y : Q) : bool := negb (Qle_bool y x).

(** [x / n] for a float [x] and an int [n]: raising on a zero divisor is part
    of the definition below ([pydiv]). *)
Definition Qnat (n : nat) : Q := inject_Z (Z.of_nat n).

(** Python's [round(x, ndigits)]: to the nearest multiple of [10^-ndigits],
    ties to the even neighbour. *)
Definition round_half_even (x : Q) : Z :=
  let f := Qfloor x in
  let r := x - inject_Z f in
  if Qlt_bool r (1 # 2) then f
  else if Qlt_bool (1 # 2) r then (f + 1)%Z
  else if Z.even f then f else (f + 1)%Z.

Definition round (x : Q) (ndigits : nat) : Q :=
  inject_Z (round_half_even (x * inject_Z (10 ^ Z.of_nat ndigits)))
  / inject_Z (10 ^ Z.of_nat ndigits).

(** The exceptions the modelled code can raise. *)
Inductive exn : Type :=
| TypeError            (* len() of / iteration over / subscript of None *)
| IndexError           (* list index out of range *)
| AttributeError       (* attribute of None *)
| ZeroDivisionError    (* float division by zero *)
| NameError            (* name not defined *)
| ConfigurationError   (* Hist: operation incompatible with error tracking *)
| NotConfigured.       (* OutsideRegion: [outside] not supplied *)

Inductive result (A : Type) : Type :=
| Ok (a : A)
| Exc (e : exn).
Arguments Ok {A} a.
Arguments Exc {A} e.

(** A statement inside a function body falls through with a value, makes the
    function return, or raises. *)
Inductive ctl (R A : Type) : Type :=
| Next (a : A)
| Return (r : R)
| Raise (e : exn).
Arguments Next {R A} a.
Arguments Return {R A} r.
Arguments Raise {R A} e.

Definition bind {R A B : Type} (c : ctl R A) (k : A -> ctl R B) : ctl R B :=
  match c with
  | Next a => k a
  | Return r => Return r
  | Raise e => Raise e
  end.

Declare Scope ctl_scope.
Delimit Scope ctl_scope with ctl.
Notation "x <- c ;; k" := (bind c (fun x => k))
  (at level 61, c at next level, right associativity) : ctl_scope.
Notation "' p <- c ;; k" := (bind c (fun x => match x with p => k end))
  (at level 61, p pattern, c at next level, right associativity) : ctl_scope.
Notation "c ;; k" := (bind c (fun _ => k))
  (at level 61, right associativity) : ctl_scope.

(** [if cond: return r] *)
Definition ifret {R : Type} (cond : bool) (r : R) : ctl R unit :=
  if cond then Return r else Next tt.

(** [for x in xs: body], the loop's local variables threaded as [s]. *)
Fixpoint foreach {R A S : Type} (xs : list A) (s : S)
  (body : A -> S -> ctl R S) : ctl R S :=
  match xs with
  | [] => Next s
  | x :: xs' => bind (body x s) (fun s' => foreach xs' s' body)
  end.

(** A function whose every path ends in [return] or [raise]. *)
Definition run {R : Type} (c : ctl R Empty_set) : result R :=
  match c with
  | Next a => match a with end
  | Return r => Ok r
  | Raise e => Exc e
  end.

(** A function body evaluated as an expression: its value, or the exception. *)
Definition eval {R : Type} (c : ctl R R) : result R :=
  match c with
  | Next r => Ok r
  | Return r => Ok r
  | Raise e => Exc e
  end.

Definition is_None {A : Type} (o : option A) : bool :=
  match o with None => true | Some _ => false end.

(** [len(o)], [for x in o] and [o[i]] on an attribute that is a list or None. *)
Definition len {R A : Type} (o : option (list A)) : ctl R nat :=
  match o with
  | None => Raise TypeError
  | Some l => Next (List.length l)
  end.

Definition iter {R A : Type} (o : option (list A)) : ctl R (list A) :=
  match o with
  | None => Raise TypeError
  | Some l => Next l
  end.

Definition getitem {R A : Type} (l : list A) (i : nat) : ctl R A :=
  match nth_error l i with
  | None => Raise IndexError
  | Some x => Next x
  end.

Definition subscript {R A : Type} (o : option (list A)) (i : nat) : ctl R A :=
  match o with
  | None => Raise TypeError
  | Some l => getitem l i
  end.

(** [x / n] on a float: ZeroDivisionError for a zero divisor. *)
Definition pydiv {R : Type} (x : Q) (n : nat) : ctl R Q :=
  match n with
  | O => Raise ZeroDivisionError
  | S _ => Next (x / Qnat n)
  end.

(** ** The objects of [ngl_resum] the notebooks handle *)

Module FourVector.

(** The components passed to [ngl.FourVector(e,px,py,pz)] and the attributes
    the notebooks read ([.e], [.pT], [.eT], [.rap]). *)
Record t : Type := mk {
  e : Q; px : Q; py : Q; pz : Q;
  pT : Q; eT : Q; rap : Q
}.

End FourVector.

Module Event.

(** An [ngl.Event] built from an LHE event: per role, the list of
    four-vectors of that role or None, and the event weight. *)
Record t : Type := mk {
  intermediateTop : option (list FourVector.t);
  outgoingBottom : option (list FourVector.t);
  outgoingElectron : option (list FourVector.t);
  outgoingENeutrino : option (list FourVector.t);
  outgoingMuon : option (list FourVector.t);
  outgoingMNeutrino : option (list FourVector.t);
  weight : Q
}.

End Event.

Module Hist.

Record t : Type := mk {
  nbins : nat;
  tmax : Q;
  errorHistCalc : bool;
  entries : list Q;
  squaredEntries : list Q
}.

Fixpoint zipWith (f : Q -> Q -> Q) (xs ys : list Q) : list Q :=
  match xs, ys with
  | x :: xs', y :: ys' => f x y :: zipWith f xs' ys'
  | _, _ => []
  end.

(** Modelled from the spec: the constructor [Hist(nbins,tmax,errorHistCalc)],
    absent from the sources.  "ordered sequence of nbins bins spanning
    [0, tmax]; each bin holds an accumulated value and, if error tracking is
    enabled, a running sum of squares". *)
Definition init (nbins : nat) (tmax : Q) (errorHistCalc : bool) : t :=
  {| nbins := nbins; tmax := tmax; errorHistCalc := errorHistCalc;
     entries := repeat 0 nbins;
     squaredEntries := if errorHistCalc then repeat 0 nbins else [] |}.

(** Modelled from the spec: [h += other], absent from the sources.
    "merge(other) - element-wise sum of two histograms of identical shape". *)
Definition iadd (h other : t) : t :=
  {| nbins := nbins h; tmax := tmax h; errorHistCalc := errorHistCalc h;
     entries := zipWith Qplus (entries h) (entries other);
     squaredEntries :=
       if errorHistCalc h
       then zipWith Qplus (squaredEntries h) (squaredEntries other)
       else [] |}.

(** Modelled from the spec: [h /= n], absent from the sources.
    "scale(1/n) - divides every bin by n (forbidden when error tracking is
    enabled ...)"; "scaling an error-tracking histogram [is a configuration
    error], rejected at the call".  [1/n] itself raises for [n = 0]. *)
Definition idiv (h : t) (n : Q) : result t :=
  if errorHistCalc h then Exc ConfigurationError
  else if Qeq_bool n 0 then Exc ZeroDivisionError
  else Ok {| nbins := nbins h; tmax := tmax h; errorHistCalc := false;
             entries := map (fun x => x / n) (entries h);
             squaredEntries := [] |}.

End Hist.

Module OutsideRegion.

(** An [ngl.OutsideRegion] instance: the event it was built with and, once
    the caller has assigned one, the instance attribute [outside] (a bound
    method, i.e. a closure over the instance). *)
Record t : Type := mk {
  event : option Event.t;
  outside_attr : option (FourVector.t -> result bool)
}.

(** [ngl.OutsideRegion(event)] / [ngl.OutsideRegion()] *)
Definition init (event : option Event.t) : t :=
  {| event := event; outside_attr := None |}.

(** [self.outside = f.__get__(self, ngl.OutsideRegion)]: the instance
    attribute shadows the class's method; [f] receives the instance. *)
Definition set_outside (self : t)
  (f : t -> FourVector.t -> result bool) : t :=
  {| event := event self; outside_attr := Some (f self) |}.

(** Modelled from the spec: the class's own [outside] method, absent from
    the sources.  "Default stub always raises / signals 'not configured'
    until the caller supplies a concrete predicate". *)
Definition outside (self : t) (v : FourVector.t) : result bool :=
  match outside_attr self with
  | Some f => f v
  | None => Exc NotConfigured
  end.

End OutsideRegion.

Module Shower.

(** The attributes of an [ngl.Shower] the notebooks read once [shower()]
    has run. *)
Record t : Type := mk {
  resLL : Hist.t;
  ngl1Loop : Q;
  ngl2Loop : Q
}.

End Shower.

(** ** The imported libraries, as interfaces *)

(** What the notebooks call on [ngl_resum] objects: the FourVector
    constructor and operators, and the construction and run of a Shower.
    The shower draws from a pseudo-random source, threaded as [Rng]. *)
Class ngl_resum : Type := {
  (* ngl.FourVector(e,px,py,pz) *)
  FourVector_new : Q -> Q -> Q -> Q -> FourVector.t;
  (* v.R2(w) *)
  FourVector_R2 : FourVector.t -> FourVector.t -> Q;
  (* v + w *)
  FourVector_add : FourVector.t -> FourVector.t -> FourVector.t;
  (* v * w *)
  FourVector_mul : FourVector.t -> FourVector.t -> Q;
  (* v / x *)
  FourVector_truediv : FourVector.t -> Q -> FourVector.t;
  Rng : Type;
  (* shower=ngl.Shower(ev,outsideRegion,nsh,nbins,tmax,showerCutoff);
     shower.shower() *)
  Shower_shower :
    Event.t -> OutsideRegion.t -> nat -> nat -> Q -> Q -> Rng ->
    Shower.t * Rng
}.

Class numpy : Type := {
  (* np.sqrt on a non-negative float *)
  np_sqrt : Q -> Q
}.

(** A float that may be nan: [None] is nan.  [np.sqrt] of a negative float
    is nan (numpy warns, it does not raise). *)
Definition sqrt_or_nan {N : numpy} (x : Q) : option Q :=
  if Qlt_bool x 0 then None else Some (np_sqrt x).

(** [a < b] for a float [a] that may be nan: False on nan. *)
Definition nan_lt (a : option Q) (b : Q) : bool :=
  match a with
  | Some x => Qlt_bool x b
  | None => false
  end.

(** [abs(a - c)] for a float [a] that may be nan: nan on nan. *)
Definition nan_abs_sub (a : option Q) (c : Q) : option Q :=
  match a with
  | Some x => Some (Qabs (x - c))
  | None => None
  end.

(** [time.time()]: the reading of the clock at the k-th call of a cell. *)
Class time : Type := {
  time_time : nat -> Q
}.

(** Modelled from the spec: [FourVector.__truediv__] is not in this
    repository.  [v / x] on a four-vector is the library's division for a
    non-zero divisor; spec 4.1 makes division by zero a caller error, which
    Python's division signals with ZeroDivisionError. *)
Definition truediv {R : Type} {L : ngl_resum} (v : FourVector.t) (x : Q)
  : ctl R FourVector.t :=
  if Qeq_bool x 0 then Raise ZeroDivisionError
  else Next (FourVector_truediv v x).

(** What [print] receives. *)
Inductive pyval : Type :=
| PStr (s : string)
| PInt (n : nat)
| PFloat (x : Q).

(** ** docs/resummator_dipole.ipynb *)

Module Dipole.

Definition nbins : nat := 10.
Definition tmax : Q := 0.1.
Definition nsh : nat := 1000.
Definition showerCutoff : Q := 6.

Definition b : Q := 0.9.

Definition dipole {L : ngl_resum} : list FourVector.t :=
  [FourVector_new 1 0 0 b; FourVector_new 1 0 0 (- b)].

Definition outsideRegion0 : OutsideRegion.t := OutsideRegion.init None.

Definition _outside (self : OutsideRegion.t) (v : FourVector.t) : bool :=
  let rapRangeMax := 0.8 in
  let rapRangeMin := 0.0 in
  Qlt_bool (Qabs (FourVector.rap v)) rapRangeMax
  && Qle_bool rapRangeMin (Qabs (FourVector.rap v)).

(** [outsideRegion.outside = _outside.__get__(outsideRegion,ngl.OutsideRegion)] *)
Definition outsideRegion : OutsideRegion.t :=
  OutsideRegion.set_outside outsideRegion0 (fun self v => Ok (_outside self v)).

(* light-like FourVector along y-axis - is outside! *)
Definition fvOut {L : ngl_resum} : FourVector.t := FourVector_new 1 0 1 0.
(* light-like FourVector along z-axis - is inside! *)
Definition fvIn {L : ngl_resum} : FourVector.t := FourVector_new 1 0 0 1.

(** The recorded outputs of [outsideRegion.outside(fvOut)] (Out[11]) and
    [outsideRegion.outside(fvIn)] (Out[12]). *)
Definition Out11 : bool := true.
Definition Out12 : bool := false.

End Dipole.

(** ** docs/resummator_lhe.ipynb *)

Module LHE.

Import FourVector.
Local Open Scope ctl_scope.

Definition nbins : nat := 10.
Definition tmax : Q := 0.1.
Definition nsh : nat := 20.
Definition showerCutoff : Q := 6.

(** *** Check validity of event *)

Definition validEvent {L : ngl_resum} {N : numpy} (ev : Event.t) : result bool :=
  run (
    (* check whether we have the necessary particles *)
    ifret (is_None (Event.intermediateTop ev)) false ;;
    ifret (is_None (Event.outgoingBottom ev)) false ;;
    ifret (is_None (Event.outgoingElectron ev)
           && is_None (Event.outgoingMuon ev)) false ;;
    n <- len (Event.intermediateTop ev) ;;
    ifret (negb (n =? 2)%nat) false ;;
    n <- len (Event.outgoingBottom ev) ;;
    ifret (negb (n =? 2)%nat) false ;;

    let momentaLeptonsOut := [] in
    let momentaNeutrinoOut := [] in

    let electronmuonevent := true in
    ' (momentaLeptonsOut, momentaNeutrinoOut, electronmuonevent) <-
      (if negb (is_None (Event.outgoingElectron ev)) then
         xs <- iter (Event.outgoingElectron ev) ;;
         momentaLeptonsOut <-
           foreach xs momentaLeptonsOut (fun i momentaLeptonsOut =>
             let momentaLeptonsOut := momentaLeptonsOut ++ [i] in
             (* checks on electron(s) *)
             ifret (Qlt_bool (eT i) 25) false ;;
             ifret (Qlt_bool 2.47 (Qabs (rap i))) false ;;
             Next momentaLeptonsOut) ;;
         xs <- iter (Event.outgoingENeutrino ev) ;;
         momentaNeutrinoOut <-
           foreach xs momentaNeutrinoOut (fun i momentaNeutrinoOut =>
             Next (momentaNeutrinoOut ++ [i])) ;;
         Next (momentaLeptonsOut, momentaNeutrinoOut, electronmuonevent)
       else
         Next (momentaLeptonsOut, momentaNeutrinoOut, false)) ;;

    ' (momentaLeptonsOut, momentaNeutrinoOut, electronmuonevent) <-
      (if negb (is_None (Event.outgoingMuon ev)) then
         xs <- iter (Event.outgoingMuon ev) ;;
         momentaLeptonsOut <-
           foreach xs momentaLeptonsOut (fun i momentaLeptonsOut =>
             let momentaLeptonsOut := momentaLeptonsOut ++ [i] in
             (* checks on muon(s) *)
             ifret (Qlt_bool (pT i) 20) false ;;
             ifret (Qlt_bool 2.5 (Qabs (rap i))) false ;;
             Next momentaLeptonsOut) ;;
         xs <- iter (Event.outgoingMNeutrino ev) ;;
         momentaNeutrinoOut <-
           foreach xs momentaNeutrinoOut (fun i momentaNeutrinoOut =>
             Next (momentaNeutrinoOut ++ [i])) ;;
         Next (momentaLeptonsOut, momentaNeutrinoOut, electronmuonevent)
       else
         Next (momentaLeptonsOut, momentaNeutrinoOut, false)) ;;

    (* check number of leptons ans neutrinos *)
    ifret (negb (List.length momentaLeptonsOut =? 2)%nat) false ;;
    ifret (negb (List.length momentaNeutrinoOut =? 2)%nat) false ;;

    l0 <- getitem momentaLeptonsOut 0 ;;
    l1 <- getitem momentaLeptonsOut 1 ;;
    let dileptonmass :=
      sqrt_or_nan
        (FourVector_mul (FourVector_add l0 l1) (FourVector_add l0 l1)) in
    n0 <- getitem momentaNeutrinoOut 0 ;;
    n1 <- getitem momentaNeutrinoOut 1 ;;
    let missingMomentum := FourVector_add n0 n1 in

    (if negb electronmuonevent then
       (* checks on "missing momenta" (neutrinos) and dilepton mass *)
       ifret (Qlt_bool (eT missingMomentum) 40) false ;;
       ifret (nan_lt dileptonmass 15
              || nan_lt (nan_abs_sub dileptonmass 91) 10) false
     else
       (* check on visible transverse momentum *)
       b0 <- subscript (Event.outgoingBottom ev) 0 ;;
       b1 <- subscript (Event.outgoingBottom ev) 1 ;;
       ifret (Qlt_bool (pT l0 + pT l1 + pT b0 + pT b1) 130) false) ;;

    (* checks on bottom quarks *)
    xs <- iter (Event.outgoingBottom ev) ;;
    foreach xs tt (fun i _ =>
      ifret (Qlt_bool (pT i) 25) false ;;
      ifret (Qlt_bool 2.4 (Qabs (rap i))) false ;;
      foreach momentaLeptonsOut tt (fun j _ =>
        ifret (Qlt_bool (FourVector_R2 i j) (0.4 ^ 2)) false)) ;;

    Return true (* only gets reached, if no check failed. *)
  ).

(** *** Defining the outside region *)

Definition _outside {L : ngl_resum} (self : OutsideRegion.t) (v : FourVector.t)
  : result bool :=
  eval (
    event <- match OutsideRegion.event self with
             | None => Raise AttributeError
             | Some ev => Next ev
             end ;;
    b0 <- subscript (Event.outgoingBottom event) 0 ;;
    jetaxis1 <- truediv b0 (e b0) ;;
    b1 <- subscript (Event.outgoingBottom event) 1 ;;
    jetaxis2 <- truediv b1 (e b1) ;;
    let jetRadius := 0.4 in
    let rapRangeMax := 0.8 in
    let rapRangeMin := 0.0 in
    Next (Qlt_bool (jetRadius ^ 2) (FourVector_R2 v jetaxis1)
          && Qlt_bool (jetRadius ^ 2) (FourVector_R2 v jetaxis2)
          && Qlt_bool (Qabs (rap v)) rapRangeMax
          && Qle_bool rapRangeMin (Qabs (rap v)))
  ).

(** *** Showering the events, one by one *)

(** The notebook's global variables, the hidden state of the pseudo-random
    source, and what has been printed.  [shower] is None until the name is
    first assigned. *)
Record state {L : ngl_resum} : Type := mkState {
  fullResultLL : Hist.t;
  fullNGL1Loop : Q;
  fullNGL2Loop : Q;
  eventWeight : Q;
  numberEvents : nat;
  numberValidEvents : nat;
  shower : option Shower.t;
  rng : Rng;
  stdout : list (list pyval)
}.

(** Cells 5 to 7. *)
Definition initial {L : ngl_resum} (seed : Rng) : state :=
  {| fullResultLL := Hist.init nbins tmax false;
     fullNGL1Loop := 0;
     fullNGL2Loop := 0;
     eventWeight := 0;
     numberEvents := 0;
     numberValidEvents := 0;
     shower := None;
     rng := seed;
     stdout := [] |}.

Definition warning : list pyval :=
  [PStr "Warning: events not of equal weight!"].

(** One pass through the body of [for event in evtFile].  [event] is taken
    as [ngl.Event(eventFromFile=event,productionDipoles='intermediate',
    decayDipoles=True)] has built it, and the library calls of the pass
    ([ngl.Event], [ngl.OutsideRegion], [ngl.Shower] and [shower.shower()],
    whose code is not in this repository) are taken to return: the only
    exception of the pass that is modelled is the one [validEvent] raises.
    The result is the state reached and that exception, if it was raised. *)
Definition loop_body {L : ngl_resum} {N : numpy} (event : Event.t) (s : state)
  : state * option exn :=
  let numberEvents := S (numberEvents s) in
  let ev := event in
  let eventWeight :=
    if negb (Qlt_bool 0 (eventWeight s)) then Event.weight ev
    else eventWeight s in
  let stdout :=
    if negb (Qeq_bool eventWeight (Event.weight ev))
    then stdout s ++ [warning]
    else stdout s in
  match validEvent ev with
  | Exc e =>
      (mkState _ (fullResultLL s) (fullNGL1Loop s) (fullNGL2Loop s)
         eventWeight numberEvents (numberValidEvents s) (shower s) (rng s)
         stdout,
       Some e)
  | Ok false =>
      (mkState _ (fullResultLL s) (fullNGL1Loop s) (fullNGL2Loop s)
         eventWeight numberEvents (numberValidEvents s) (shower s) (rng s)
         stdout,
       None)
  | Ok true =>
      let numberValidEvents := S (numberValidEvents s) in
      let outsideRegion := OutsideRegion.init (Some ev) in
      let outsideRegion := OutsideRegion.set_outside outsideRegion _outside in
      let (shower, rng) :=
        Shower_shower ev outsideRegion nsh nbins tmax showerCutoff (rng s) in
      (mkState _ (Hist.iadd (fullResultLL s) (Shower.resLL shower))
         (fullNGL1Loop s + Shower.ngl1Loop shower)
         (fullNGL2Loop s + Shower.ngl2Loop shower)
         eventWeight numberEvents numberValidEvents (Some shower) rng
         stdout,
       None)
  end.

(** [for event in evtFile: ...] *)
Fixpoint event_loop {L : ngl_resum} {N : numpy} (evtFile : list Event.t) (s : state)
  : state * option exn :=
  match evtFile with
  | [] => (s, None)
  | event :: rest =>
      match loop_body event s with
      | (s', None) => event_loop rest s'
      | (s', Some e) => (s', Some e)
      end
  end.

Definition print {L : ngl_resum} (line : list pyval) (s : state) : state :=
  mkState _ (fullResultLL s) (fullNGL1Loop s) (fullNGL2Loop s)
    (eventWeight s) (numberEvents s) (numberValidEvents s) (shower s) (rng s)
    (stdout s ++ [line]).

(** Cell 8: [timeStart = time.time()], the loop, and the three prints after
    it. *)
Definition cell8 {L : ngl_resum} {N : numpy} {T : time}
  (evtFile : list Event.t) (s : state) : state * option exn :=
  let timeStart := time_time 0 in
  match event_loop evtFile s with
  | (s', None) =>
      let s' := print [PStr "runtime="; PFloat (time_time 1 - timeStart);
                       PStr "sec"] s' in
      let s' := print [PStr "Of"; PInt (numberEvents s'); PStr "events,";
                       PInt (numberValidEvents s'); PStr "were valid."] s' in
      let s' := print [PStr "Weight of each event:";
                       PFloat (eventWeight s')] s' in
      (s', None)
  | (s', Some e) => (s', Some e)
  end.

(** Cell 9:
    [fullResultLL/=numberValidEvents]
    [fullNGL1Loop/=numberValidEvents]
    [fullNGL2Loop/=numberValidEvents] *)
Definition cell9 {L : ngl_resum} (s : state) : state * option exn :=
  match Hist.idiv (fullResultLL s) (Qnat (numberValidEvents s)) with
  | Exc e => (s, Some e)
  | Ok h =>
      match eval (pydiv (fullNGL1Loop s) (numberValidEvents s)) with
      | Exc e =>
          (mkState _ h (fullNGL1Loop s) (fullNGL2Loop s) (eventWeight s)
             (numberEvents s) (numberValidEvents s) (shower s) (rng s)
             (stdout s),
           Some e)
      | Ok x1 =>
          match eval (pydiv (fullNGL2Loop s) (numberValidEvents s)) with
          | Exc e =>
              (mkState _ h x1 (fullNGL2Loop s) (eventWeight s)
                 (numberEvents s) (numberValidEvents s) (shower s) (rng s)
                 (stdout s),
               Some e)
          | Ok x2 =>
              (mkState _ h x1 x2 (eventWeight s)
                 (numberEvents s) (numberValidEvents s) (shower s) (rng s)
                 (stdout s),
               None)
          end
      end
  end.

(** Cell 10: [fullResultLL] *)
Definition cell10 {L : ngl_resum} (s : state) : Hist.t := fullResultLL s.

(** Cell 11: [round(shower.ngl1Loop,4)] *)
Definition cell11 {L : ngl_resum} (s : state) : result Q :=
  match shower s with
  | None => Exc NameError
  | Some shower => Ok (round (Shower.ngl1Loop shower) 4)
  end.

(** Cell 12: [round(shower.ngl2Loop+0.5*shower.ngl1Loop**2,4)] *)
Definition cell12 {L : ngl_resum} (s : state) : result Q :=
  match shower s with
  | None => Exc NameError
  | Some shower =>
      Ok (round (Shower.ngl2Loop shower
                 + 0.5 * Shower.ngl1Loop shower ^ 2) 4)
  end.

End LHE.

(** ** The shower's accumulation over realizations *)

Module ShowerSpec.

(** What one shower realization (steps 1 to 7 of the evolution) contributes:
    its histogram and its one- and two-loop terms. *)
Record realization : Type := mkRealization {
  hist : Hist.t;
  oneLoop : Q;
  twoLoop : Q
}.

Section Accumulate.

Context {Rng : Type}.

(** One realization, drawing from the pseudo-random source. *)
Variable single :
  Event.t -> OutsideRegion.t -> nat -> Q -> Q -> Rng -> realization * Rng.

Variables (ev : Event.t) (outsideRegion : OutsideRegion.t).
Variables (nbins : nat) (tmax showerCutoff : Q).

Definition add (acc : Shower.t) (r : realization) : Shower.t :=
  {| Shower.resLL := Hist.iadd (Shower.resLL acc) (hist r);
     Shower.ngl1Loop := Shower.ngl1Loop acc + oneLoop r;
     Shower.ngl2Loop := Shower.ngl2Loop acc + twoLoop r |}.

Fixpoint accumulate (nsh : nat) (acc : Shower.t) (rng : Rng)
  : Shower.t * Rng :=
  match nsh with
  | O => (acc, rng)
  | S nsh' =>
      let (r, rng') := single ev outsideRegion nbins tmax showerCutoff rng in
      accumulate nsh' (add acc r) rng'
  end.


Definition fresh : Shower.t :=
  {| Shower.resLL := Hist.init nbins tmax true;
     Shower.ngl1Loop := 0;
     Shower.ngl2Loop := 0 |}.

End Accumulate.

(** Modelled from the spec: [Shower.shower()], absent from the sources.
    "Repeat steps 1-7 nsh times; merge each realization's per-shower
    histogram into resLL and add each realization's loop-coefficient
    contributions into ngl1Loop/ngl2Loop"; the outputs are "accumulated, not
    yet averaged, across nsh realizations". *)
Definition shower {Rng : Type}
  (single :
     Event.t -> OutsideRegion.t -> nat -> Q -> Q -> Rng -> realization * Rng)
  (ev : Event.t) (outsideRegion : OutsideRegion.t)
  (nsh nbins : nat) (tmax showerCutoff : Q) (rng : Rng) : Shower.t * Rng :=
  accumulate single ev outsideRegion nbins tmax showerCutoff nsh
    (fresh nbins tmax) rng.

(** The library [L] with its shower replaced by the accumulation above. *)
Definition library (L : ngl_resum)
  (single :
     Event.t -> OutsideRegion.t -> nat -> Q -> Q -> @Rng L ->
     realization * @Rng L) : ngl_resum :=
  {| FourVector_new := @FourVector_new L;
     FourVector_R2 := @FourVector_R2 L;
     FourVector_add := @FourVector_add L;
     FourVector_mul := @FourVector_mul L;
     FourVector_truediv := @FourVector_truediv L;
     Rng := @Rng L;
     Shower_shower := shower single |}.

End ShowerSpec.

(** ** Vocabulary of the properties *)

Definition Qsum (xs : list Q) : Q := fold_left Qplus xs 0.

Definition Hist_sum (h0 : Hist.t) (hs : list Hist.t) : Hist.t :=
  fold_left Hist.iadd hs h0.


Definition opt_list {A : Type} (o : option (list A)) : list A :=
  match o with None => [] | Some l => l end.

(** The outgoing charged leptons (electrons and muons) and the outgoing
    neutrinos an event contains. *)
Definition chargedLeptons (ev : Event.t) : list FourVector.t :=
  opt_list (Event.outgoingElectron ev) ++ opt_list (Event.outgoingMuon ev).

Definition neutrinos (ev : Event.t) : list FourVector.t :=
  opt_list (Event.outgoingENeutrino ev) ++ opt_list (Event.outgoingMNeutrino ev).

(** The neutrinos of the lepton flavours that are present. *)
Definition flavourNeutrinos (ev : Event.t) : list FourVector.t :=
  (if is_None (Event.outgoingElectron ev) then []
   else opt_list (Event.outgoingENeutrino ev))
  ++ (if is_None (Event.outgoingMuon ev) then []
      else opt_list (Event.outgoingMNeutrino ev)).

(** The roles and multiplicities [validEvent] asks for first. *)
Definition rolesPresent (ev : Event.t) : bool :=
  match Event.intermediateTop ev, Event.outgoingBottom ev with
  | Some tops, Some bottoms =>
      negb (is_None (Event.outgoingElectron ev)
            && is_None (Event.outgoingMuon ev))
      && (List.length tops =? 2)%nat && (List.length bottoms =? 2)%nat
  | _, _ => false
  end.

(** The outside region the loop hands to the shower for [ev]. *)
Definition region {L : ngl_resum} (ev : Event.t) : OutsideRegion.t :=
  OutsideRegion.set_outside (OutsideRegion.init (Some ev)) LHE._outside.

(** The shower objects the loop produces, one per valid event, in order. *)
Fixpoint showered {L : ngl_resum} {N : numpy} (evtFile : list Event.t) (rng : Rng)
  : list Shower.t :=
  match evtFile with
  | [] => []
  | ev :: rest =>
      match LHE.validEvent ev with
      | Ok true =>
          let (sh, rng') :=
            Shower_shower ev (region ev) LHE.nsh LHE.nbins LHE.tmax
              LHE.showerCutoff rng in
          sh :: showered rest rng'
      | Ok false => showered rest rng
      | Exc _ => []
      end
  end.

Definition warnings {L : ngl_resum} (s : LHE.state) : nat :=
  List.length
    (filter (fun line =>
               match line with
               | [PStr m] => String.eqb m "Warning: events not of equal weight!"
               | _ => false
               end) (LHE.stdout s)).

(** *** The cuts of [validEvent], one by one *)

(** [not (i.eT < 25)] and [not (abs(i.rap) > 2.47)] *)
Definition electronCut (i : FourVector.t) : bool :=
  negb (Qlt_bool (FourVector.eT i) 25)
  && negb (Qlt_bool 2.47 (Qabs (FourVector.rap i))).

(** [not (i.pT < 20)] and [not (abs(i.rap) > 2.5)] *)
Definition muonCut (i : FourVector.t) : bool :=
  negb (Qlt_bool (FourVector.pT i) 20)
  && negb (Qlt_bool 2.5 (Qabs (FourVector.rap i))).

(** The cuts on a bottom quark, against the charged leptons [ls]. *)
Definition bottomCut {L : ngl_resum} (ls : list FourVector.t)
  (i : FourVector.t) : bool :=
  negb (Qlt_bool (FourVector.pT i) 25)
  && negb (Qlt_bool 2.4 (Qabs (FourVector.rap i)))
  && forallb (fun j => negb (Qlt_bool (FourVector_R2 i j) (0.4 ^ 2))) ls.

(** The event has both an electron list and a muon list. *)
Definition electronMuon (ev : Event.t) : bool :=
  negb (is_None (Event.outgoingElectron ev))
  && negb (is_None (Event.outgoingMuon ev)).

(** The dilepton mass, nan when the squared mass is negative. *)
Definition dileptonMass {L : ngl_resum} {N : numpy} (l0 l1 : FourVector.t)
  : option Q :=
  sqrt_or_nan (FourVector_mul (FourVector_add l0 l1) (FourVector_add l0 l1)).

(** The cut that depends on the lepton flavours: on the visible transverse
    momentum for an electron-muon event, on the missing transverse energy
    and the dilepton mass otherwise. *)
Definition flavourCut {L : ngl_resum} {N : numpy} (ev : Event.t)
  (l0 l1 n0 n1 b0 b1 : FourVector.t) : bool :=
  if electronMuon ev
  then negb (Qlt_bool (FourVector.pT l0 + FourVector.pT l1
                       + FourVector.pT b0 + FourVector.pT b1) 130)
  else negb (Qlt_bool (FourVector.eT (FourVector_add n0 n1)) 40)
       && negb (nan_lt (dileptonMass l0 l1) 15
                || nan_lt (nan_abs_sub (dileptonMass l0 l1) 91) 10).

(** Each lepton flavour that is present has its neutrino list. *)
Definition neutrinosReadable (ev : Event.t) : bool :=
  (is_None (Event.outgoingElectron ev)
   || negb (is_None (Event.outgoingENeutrino ev)))
  && (is_None (Event.outgoingMuon ev)
      || negb (is_None (Event.outgoingMNeutrino ev))).

(** All the conditions under which [validEvent] answers True. *)
Definition passesCuts {L : ngl_resum} {N : numpy} (ev : Event.t) : bool :=
  rolesPresent ev
  && forallb electronCut (opt_list (Event.outgoingElectron ev))
  && forallb muonCut (opt_list (Event.outgoingMuon ev))
  && neutrinosReadable ev
  && match chargedLeptons ev, flavourNeutrinos ev,
           opt_list (Event.outgoingBottom ev) with
     | [l0; l1], [n0; n1], [b0; b1] =>
         flavourCut ev l0 l1 n0 n1 b0 b1
         && forallb (bottomCut [l0; l1]) [b0; b1]
     | _, _, _ => false
     end.

(** The conditions under which [validEvent] iterates over a neutrino list
    that is None: the electrons are present and pass their cuts but
    outgoingENeutrino is None; or the electron block is passed (no electron
    list, or electrons that pass with their neutrino list), the muons are
    present and pass their cuts but outgoingMNeutrino is None. *)
Definition readsMissingNeutrinos (ev : Event.t) : bool :=
  rolesPresent ev
  && ((negb (is_None (Event.outgoingElectron ev))
       && forallb electronCut (opt_list (Event.outgoingElectron ev))
       && is_None (Event.outgoingENeutrino ev))
      || ((is_None (Event.outgoingElectron ev)
           || (forallb electronCut (opt_list (Event.outgoingElectron ev))
               && negb (is_None (Event.outgoingENeutrino ev))))
          && negb (is_None (Event.outgoingMuon ev))
          && forallb muonCut (opt_list (Event.outgoingMuon ev))
          && is_None (Event.outgoingMNeutrino ev))).

(** [validEvent] answers True. *)
Definition isValid {L : ngl_resum} {N : numpy} (ev : Event.t) : bool :=
  match LHE.validEvent ev with
  | Ok true => true
  | _ => false
  end.

(** The events among [evs] whose weight is not the reference weight [w]. *)
Definition mismatches (w : Q) (evs : list Event.t) : nat :=
  List.length (filter (fun ev => negb (Qeq_bool w (Event.weight ev))) evs).

(** ** A stand-in library, for running the drivers on concrete inputs *)

Module Stub.

Import FourVector.

(** Exact where the examples need it: rapidity 0 for [pz = 0], a large
    sentinel in place of the infinite rapidity of [|pz| = e]. *)
Definition rap_of (e pz : Q) : Q :=
  if Qeq_bool pz 0 then 0
  else if Qeq_bool (Qabs pz) e then (if Qlt_bool 0 pz then 1000 else -1000)
  else pz / (e - Qabs pz).

(** Exact for momenta along a transverse axis. *)
Definition pT_of (px py : Q) : Q := Qabs px + Qabs py.

Definition new (e px py pz : Q) : FourVector.t :=
  FourVector.mk e px py pz (pT_of px py) (pT_of px py) (rap_of e pz).

Definition add (a b : FourVector.t) : FourVector.t :=
  new (e a + e b) (px a + px b) (py a + py b) (pz a + pz b).

Definition mul (a b : FourVector.t) : Q :=
  e a * e b - px a * px b - py a * py b - pz a * pz b.

Definition truediv (a : FourVector.t) (x : Q) : FourVector.t :=
  new (e a / x) (px a / x) (py a / x) (pz a / x).

(** Rapidity difference squared plus the squared chord between the
    transverse directions. *)
Definition R2 (a b : FourVector.t) : Q :=
  (rap a - rap b) ^ 2
  + (px a / pT a - px b / pT b) ^ 2 + (py a / pT a - py b / pT b) ^ 2.

(** Square root truncated to six decimals. *)
Definition sqrt (x : Q) : Q :=
  inject_Z (Z.sqrt (Qfloor (x * inject_Z (10 ^ 12)))) / inject_Z (10 ^ 6).

(** A deterministic "realization": the source is a counter. *)
Definition single (ev : Event.t) (outsideRegion : OutsideRegion.t)
  (nbins : nat) (tmax showerCutoff : Q) (rng : nat)
  : ShowerSpec.realization * nat :=
  ({| ShowerSpec.hist :=
        {| Hist.nbins := nbins; Hist.tmax := tmax; Hist.errorHistCalc := true;
           Hist.entries := repeat (1 / Qnat (S rng)) nbins;
           Hist.squaredEntries :=
             repeat ((1 / Qnat (S rng)) ^ 2) nbins |};
      ShowerSpec.oneLoop := - Qnat (S rng);
      ShowerSpec.twoLoop := Qnat rng |},
   S rng).

#[export] Instance ngl : ngl_resum :=
  {| FourVector_new := new;
     FourVector_R2 := R2;
     FourVector_add := add;
     FourVector_mul := mul;
     FourVector_truediv := truediv;
     Rng := nat;
     Shower_shower := ShowerSpec.shower single |}.

#[export] Instance np : numpy := {| np_sqrt := sqrt |}.

(** A clock that advances by one second per reading. *)
#[export] Instance clock : time := {| time_time := fun k => Qnat k |}.

(** Test events. *)
Definition top1 : FourVector.t := new 200 0 60 100.
Definition top2 : FourVector.t := new 200 0 (-60) (-100).
Definition bottom1 : FourVector.t := new 60 0 60 0.
Definition bottom2 : FourVector.t := new 60 0 (-60) 0.
Definition electron : FourVector.t := new 50 50 0 0.
Definition muon : FourVector.t := new 100 (-100) 0 0.
Definition muon' : FourVector.t := new 50 50 0 0.
Definition nu1 : FourVector.t := new 30 30 0 0.
Definition nu2 : FourVector.t := new 30 0 30 0.
Definition nu3 : FourVector.t := new 10 0 0 10.

(** An electron-muon event passing every cut, of weight [w]. *)
Definition ev_emu (w : Q) : Event.t :=
  {| Event.intermediateTop := Some [top1; top2];
     Event.outgoingBottom := Some [bottom1; bottom2];
     Event.outgoingElectron := Some [electron];
     Event.outgoingENeutrino := Some [nu1];
     Event.outgoingMuon := Some [muon];
     Event.outgoingMNeutrino := Some [nu2];
     Event.weight := w |}.

(** An event without intermediate top quarks. *)
Definition ev_noTop (w : Q) : Event.t :=
  {| Event.intermediateTop := None;
     Event.outgoingBottom := Some [bottom1; bottom2];
     Event.outgoingElectron := Some [electron];
     Event.outgoingENeutrino := Some [nu1];
     Event.outgoingMuon := Some [muon];
     Event.outgoingMNeutrino := Some [nu2];
     Event.weight := w |}.

(** A two-muon event with an additional electron neutrino. *)
Definition ev_threeNeutrinos : Event.t :=
  {| Event.intermediateTop := Some [top1; top2];
     Event.outgoingBottom := Some [bottom1; bottom2];
     Event.outgoingElectron := None;
     Event.outgoingENeutrino := Some [nu3];
     Event.outgoingMuon := Some [muon'; muon];
     Event.outgoingMNeutrino := Some [nu1; nu2];
     Event.weight := 1 |}.

(** The notebook's state before the loop, the counter at 0. *)
Definition start : LHE.state (L := ngl) := LHE.initial (L := ngl) 0%nat.

(** A file of three events, the second without top quarks. *)
Definition batch : list Event.t := [ev_emu 1; ev_noTop 1; ev_emu 1].

(** A file whose weights differ and are all non-positive. *)
Definition batch_nonpositive : list Event.t :=
  [ev_emu (-1); ev_noTop (-2); ev_emu 0].

(** The state after a first event of weight 1. *)
Definition after_first : LHE.state (L := ngl) :=
  fst (LHE.loop_body (N := np) (ev_emu 1) start).

(** A histogram without error tracking and one with it. *)
Definition hist_plain : Hist.t :=
  {| Hist.nbins := 3; Hist.tmax := 0.3; Hist.errorHistCalc := false;
     Hist.entries := [1; 2; 3]; Hist.squaredEntries := [] |}.
Definition hist_errors : Hist.t :=
  {| Hist.nbins := 3; Hist.tmax := 0.3; Hist.errorHistCalc := true;
     Hist.entries := [1; 2; 3]; Hist.squaredEntries := [1; 4; 9] |}.

(** An electron-muon event whose electron-neutrino list is None. *)
Definition ev_noENeutrino : Event.t :=
  {| Event.intermediateTop := Some [top1; top2];
     Event.outgoingBottom := Some [bottom1; bottom2];
     Event.outgoingElectron := Some [electron];
     Event.outgoingENeutrino := None;
     Event.outgoingMuon := Some [muon];
     Event.outgoingMNeutrino := Some [nu2];
     Event.weight := 1 |}.

(** A file that raises at its second event. *)
Definition batch_raising : list Event.t :=
  [ev_emu 1; ev_noENeutrino; ev_emu 1].

(** A file without valid event. *)
Definition batch_invalid : list Event.t := [ev_noTop 1; ev_noTop 1].

(** A file whose first positive weight comes second, and whose last event
    has another weight. *)
Definition batch_weights : list Event.t :=
  [ev_noTop 0; ev_emu 3; ev_emu 3; ev_noTop 5].

End Stub.

(** * Properties *)

(** ** Comparisons and loops *)

Lemma Qlt_bool_true (x y : Q) : Qlt_bool x y = true <-> x < y.
Proof.
  unfold Qlt_bool. rewrite negb_true_iff. split; intro H.
  - apply Qnot_le_lt. intro Hle. apply Qle_bool_iff in Hle. congruence.
  - destruct (Qle_bool y x) eqn:E; [|reflexivity].
    apply Qle_bool_iff in E. exfalso. apply (Qlt_not_le _ _ H E).
Qed.

Lemma Qlt_bool_false (x y : Q) : Qlt_bool x y = false <-> y <= x.
Proof.
  unfold Qlt_bool. rewrite negb_false_iff. apply Qle_bool_iff.
Qed.

Lemma foreach_check {R B : Type} (c : B -> bool) (r : R) (xs : list B) :
  foreach xs tt (fun j _ => ifret (c j) r)
  = if forallb (fun j => negb (c j)) xs then Next tt else Return r.
Proof.
  induction xs as [|x xs IH]; simpl; [reflexivity|].
  destruct (c x); simpl; [reflexivity|]. exact IH.
Qed.

(** ** Loops of [validEvent] *)

Section Foreach.

Context {R A : Type}.

Lemma foreach_collect (xs acc : list A) :
  foreach (R := R) xs acc (fun i acc => Next (acc ++ [i])) = Next (acc ++ xs).
Proof.
  revert acc. induction xs as [|x xs IH]; intro acc; simpl.
  - now rewrite app_nil_r.
  - rewrite IH, <- app_assoc. reflexivity.
Qed.

(** A loop that appends each element and returns [r] at the first element
    failing one of two cuts. *)
Lemma foreach_cuts (c1 c2 : A -> bool) (r : R)
  (body : A -> list A -> ctl R (list A)) (xs acc : list A) :
  (forall i acc,
     body i acc
     = bind (ifret (c1 i) r) (fun _ =>
       bind (ifret (c2 i) r) (fun _ => Next (acc ++ [i])))) ->
  foreach xs acc body
  = if forallb (fun i => negb (c1 i) && negb (c2 i)) xs
    then Next (acc ++ xs) else Return r.
Proof.
  intro Hbody. revert acc.
  induction xs as [|x xs IH]; intro acc; simpl.
  - now rewrite app_nil_r.
  - rewrite Hbody.
    destruct (c1 x); simpl; [reflexivity|].
    destruct (c2 x); simpl; [reflexivity|].
    rewrite IH, <- app_assoc. reflexivity.
Qed.

(** A loop with two cuts on each element and a third against every element
    of a second list. *)
Lemma foreach_nested {B : Type} (c1 c2 : A -> bool) (c3 : A -> B -> bool)
  (r : R) (ys : list B) (body : A -> unit -> ctl R unit) (xs : list A) :
  (forall i u,
     body i u
     = bind (ifret (c1 i) r) (fun _ =>
       bind (ifret (c2 i) r) (fun _ =>
       foreach ys tt (fun j _ => ifret (c3 i j) r)))) ->
  foreach xs tt body
  = if forallb (fun i => negb (c1 i) && negb (c2 i)
                         && forallb (fun j => negb (c3 i j)) ys) xs
    then Next tt else Return r.
Proof.
  intro Hbody.
  induction xs as [|x xs IH]; simpl; [reflexivity|].
  rewrite Hbody.
  destruct (c1 x); simpl; [reflexivity|].
  destruct (c2 x); simpl; [reflexivity|].
  rewrite foreach_check.
  destruct (forallb (fun j => negb (c3 x j)) ys); simpl; [exact IH|reflexivity].
Qed.

End Foreach.

(** ** [validEvent] *)

Section ValidEvent.

Context {L : ngl_resum} {N : numpy}.
Import FourVector.

(** The five leading checks decide alone when a role or multiplicity is
    missing. *)
Lemma validEvent_roles (ev : Event.t) :
  rolesPresent ev = false -> LHE.validEvent ev = Ok false.
Proof.
  unfold rolesPresent, LHE.validEvent.
  destruct (Event.intermediateTop ev) as [tops|]; [|reflexivity].
  destruct (Event.outgoingBottom ev) as [bottoms|]; [|reflexivity].
  simpl.
  destruct (is_None (Event.outgoingElectron ev) && is_None (Event.outgoingMuon ev));
    simpl; [reflexivity|].
  destruct (List.length tops =? 2)%nat; simpl; [|reflexivity].
  destruct (List.length bottoms =? 2)%nat; simpl; [discriminate|reflexivity].
Qed.

(** What a True verdict certifies. *)
Lemma validEvent_true (ev : Event.t) :
  LHE.validEvent ev = Ok true ->
  exists tops bottoms,
    Event.intermediateTop ev = Some tops /\ List.length tops = 2%nat /\
    Event.outgoingBottom ev = Some bottoms /\ List.length bottoms = 2%nat /\
    List.length (chargedLeptons ev) = 2%nat /\
    List.length (flavourNeutrinos ev) = 2%nat /\
    forall b, In b bottoms ->
      25 <= pT b /\ Qabs (rap b) <= 2.4 /\
      forall l, In l (chargedLeptons ev) -> 0.4 ^ 2 <= FourVector_R2 b l.
Proof.
  unfold LHE.validEvent, chargedLeptons, flavourNeutrinos.
  destruct (Event.intermediateTop ev) as [tops|]; [|discriminate].
  destruct (Event.outgoingBottom ev) as [bottoms|]; [|discriminate].
  cbn [is_None ifret bind len].
  destruct (is_None (Event.outgoingElectron ev) && is_None (Event.outgoingMuon ev));
    cbn [ifret bind negb]; [discriminate|].
  destruct (List.length tops =? 2)%nat eqn:Ht; cbn [ifret bind negb]; [|discriminate].
  destruct (List.length bottoms =? 2)%nat eqn:Hb; cbn [ifret bind negb]; [|discriminate].
  apply Nat.eqb_eq in Ht, Hb.
  intro H. exists tops, bottoms. repeat (split; [assumption || reflexivity|]).
  revert H.
  destruct (Event.outgoingElectron ev) as [els|];
    cbn [is_None negb iter bind opt_list app].
  1: rewrite (foreach_cuts (fun i => Qlt_bool (eT i) 25)
                  (fun i => Qlt_bool 2.47 (Qabs (rap i))) false)
       by reflexivity;
     destruct (forallb _ els); cbn [bind]; [|discriminate];
     destruct (Event.outgoingENeutrino ev) as [nue|];
       cbn [iter bind opt_list]; [|discriminate];
     rewrite foreach_collect; cbn [bind app].
  all: destruct (Event.outgoingMuon ev) as [mus|];
    cbn [is_None negb iter bind opt_list app].
  1,3: rewrite (foreach_cuts (fun i => Qlt_bool (pT i) 20)
                  (fun i => Qlt_bool 2.5 (Qabs (rap i))) false)
       by reflexivity;
     destruct (forallb _ mus); cbn [bind]; [|discriminate];
     destruct (Event.outgoingMNeutrino ev) as [num|];
       cbn [iter bind opt_list]; [|discriminate];
     rewrite foreach_collect; cbn [bind app].
  all: rewrite ?app_nil_r.
  all: repeat match goal with
       | |- context [Nat.eqb (List.length ?l) 2] =>
           let E := fresh "Hlen" in
           destruct (Nat.eqb (List.length l) 2) eqn:E;
           cbn [ifret bind negb]; [apply Nat.eqb_eq in E|discriminate]
       end.
  all: intro H; split; [assumption|]; split; [assumption|]; revert H.
  all: repeat match goal with
       | H : List.length ?l = 2%nat |- _ =>
           let x := fresh "x" in
           remember l as x eqn:Ex in *; clear Ex;
           destruct x as [|? [|? [|? ?]]]; try discriminate H; clear H
       end.
  all: cbn [getitem subscript nth_error bind negb].
  all: repeat match goal with
       | |- context [ifret ?c false] =>
           destruct c eqn:?; cbn [ifret bind]; [discriminate|]
       end.
  all: erewrite (foreach_nested (fun i => Qlt_bool (pT i) 25)
                  (fun i => Qlt_bool 2.4 (Qabs (rap i)))
                  (fun i j => Qlt_bool (FourVector_R2 i j) (0.4 ^ 2)) false)
         by reflexivity.
  all: match goal with
       | |- context [forallb ?f ?l] =>
           destruct (forallb f l) eqn:Hall; cbn [bind]; [|discriminate]
       end.
  all: intros _ b Hin.
  all: rewrite forallb_forall in Hall; specialize (Hall b Hin).
  all: apply andb_true_iff in Hall; destruct Hall as [Hall HR2].
  all: apply andb_true_iff in Hall; destruct Hall as [HpT Hrap].
  all: apply negb_true_iff in HpT, Hrap.
  all: apply Qlt_bool_false in HpT, Hrap.
  all: split; [exact HpT|]; split; [exact Hrap|].
  all: intros l Hl; rewrite forallb_forall in HR2; specialize (HR2 l Hl).
  all: apply negb_true_iff in HR2; apply Qlt_bool_false in HR2; exact HR2.
Qed.

End ValidEvent.

(** ** One pass through the loop body *)

Section LoopBody.

Context {L : ngl_resum} {N : numpy}.

Lemma loop_body_numberEvents (ev : Event.t) (s : LHE.state) :
  LHE.numberEvents (fst (LHE.loop_body ev s)) = S (LHE.numberEvents s).
Proof.
  unfold LHE.loop_body.
  destruct (LHE.validEvent ev) as [[|]|e]; [|reflexivity|reflexivity].
  destruct (Shower_shower _ _ _ _ _ _ _); reflexivity.
Qed.

Lemma loop_body_eventWeight (ev : Event.t) (s : LHE.state) :
  LHE.eventWeight (fst (LHE.loop_body ev s))
  = if Qlt_bool 0 (LHE.eventWeight s) then LHE.eventWeight s
    else Event.weight ev.
Proof.
  unfold LHE.loop_body.
  destruct (LHE.validEvent ev) as [[|]|e];
    [destruct (Shower_shower _ _ _ _ _ _ _)| |];
    cbn [fst LHE.eventWeight];
    destruct (Qlt_bool 0 (LHE.eventWeight s)); reflexivity.
Qed.

Lemma loop_body_stdout (ev : Event.t) (s : LHE.state) :
  LHE.stdout (fst (LHE.loop_body ev s))
  = if Qeq_bool (LHE.eventWeight (fst (LHE.loop_body ev s))) (Event.weight ev)
    then LHE.stdout s
    else LHE.stdout s ++ [LHE.warning].
Proof.
  rewrite loop_body_eventWeight.
  unfold LHE.loop_body.
  destruct (LHE.validEvent ev) as [[|]|e];
    [destruct (Shower_shower _ _ _ _ _ _ _)| |];
    cbn [fst LHE.stdout];
    destruct (Qlt_bool 0 (LHE.eventWeight s)); cbn [negb];
    match goal with |- context [Qeq_bool ?a ?b] => destruct (Qeq_bool a b) end;
    reflexivity.
Qed.

(** The only exception a pass can raise is [validEvent]'s own. *)
Lemma loop_body_exn (ev : Event.t) (s : LHE.state) :
  snd (LHE.loop_body ev s)
  = match LHE.validEvent ev with Exc e => Some e | Ok _ => None end.
Proof.
  unfold LHE.loop_body.
  destruct (LHE.validEvent ev) as [[|]|e]; [|reflexivity|reflexivity].
  destruct (Shower_shower _ _ _ _ _ _ _); reflexivity.
Qed.

(** A valid event is showered and its outputs are added. *)
Lemma loop_body_valid (ev : Event.t) (s : LHE.state) :
  LHE.validEvent ev = Ok true ->
  let s' := fst (LHE.loop_body ev s) in
  let run := Shower_shower ev (region ev) LHE.nsh LHE.nbins LHE.tmax
               LHE.showerCutoff (LHE.rng s) in
  LHE.shower s' = Some (fst run) /\
  LHE.rng s' = snd run /\
  LHE.numberValidEvents s' = S (LHE.numberValidEvents s) /\
  LHE.fullResultLL s' = Hist.iadd (LHE.fullResultLL s) (Shower.resLL (fst run)) /\
  LHE.fullNGL1Loop s' = LHE.fullNGL1Loop s + Shower.ngl1Loop (fst run) /\
  LHE.fullNGL2Loop s' = LHE.fullNGL2Loop s + Shower.ngl2Loop (fst run).
Proof.
  intro Hv. unfold LHE.loop_body, region. rewrite Hv.
  destruct (Shower_shower _ _ _ _ _ _ _) as [sh r]. cbn.
  repeat split.
Qed.

(** Any other event leaves the shower, the random source, the count of
    valid events and the three accumulators as they were. *)
Lemma loop_body_not_valid (ev : Event.t) (s : LHE.state) :
  LHE.validEvent ev <> Ok true ->
  let s' := fst (LHE.loop_body ev s) in
  LHE.shower s' = LHE.shower s /\
  LHE.rng s' = LHE.rng s /\
  LHE.numberValidEvents s' = LHE.numberValidEvents s /\
  LHE.fullResultLL s' = LHE.fullResultLL s /\
  LHE.fullNGL1Loop s' = LHE.fullNGL1Loop s /\
  LHE.fullNGL2Loop s' = LHE.fullNGL2Loop s.
Proof.
  intro Hv. unfold LHE.loop_body.
  destruct (LHE.validEvent ev) as [[|]|e]; [congruence| |]; cbn; repeat split.
Qed.

Lemma showered_skip (ev : Event.t) (rest : list Event.t) (r : Rng) :
  LHE.validEvent ev = Ok false ->
  showered (ev :: rest) r = showered rest r.
Proof. intro Hv. cbn [showered]. now rewrite Hv. Qed.

End LoopBody.

(** ** C1: events with missing roles *)

(** C1.  Amended: an event in which a required particle role is absent or
    has the wrong multiplicity (no intermediate top, no outgoing bottom,
    neither outgoing electron nor muon, or a count of intermediate tops or
    outgoing bottoms different from two) is not rejected with an error:
    [validEvent] returns False for it, the pass through the loop raises
    nothing, and the event is never handed to the shower (the shower object,
    the random source, the count of valid events and the accumulators are
    untouched, and the loop goes on with the next event). *)
Theorem missing_roles_skipped_without_error
  {L : ngl_resum} {N : numpy} (ev : Event.t) (s : LHE.state) :
  rolesPresent ev = false ->
  LHE.validEvent ev = Ok false /\
  snd (LHE.loop_body ev s) = None /\
  (let s' := fst (LHE.loop_body ev s) in
   LHE.numberEvents s' = S (LHE.numberEvents s) /\
   LHE.shower s' = LHE.shower s /\
   LHE.rng s' = LHE.rng s /\
   LHE.numberValidEvents s' = LHE.numberValidEvents s /\
   LHE.fullResultLL s' = LHE.fullResultLL s /\
   LHE.fullNGL1Loop s' = LHE.fullNGL1Loop s /\
   LHE.fullNGL2Loop s' = LHE.fullNGL2Loop s) /\
  (forall rest,
     showered (ev :: rest) (LHE.rng s) = showered rest (LHE.rng s) /\
     LHE.event_loop (ev :: rest) s
     = LHE.event_loop rest (fst (LHE.loop_body ev s))).
Proof.
  intro Hroles.
  pose proof (validEvent_roles ev Hroles) as Hv.
  assert (Hexn : snd (LHE.loop_body ev s) = None)
    by (rewrite loop_body_exn, Hv; reflexivity).
  split; [exact Hv|]. split; [exact Hexn|]. split.
  - split; [apply loop_body_numberEvents|].
    apply loop_body_not_valid. rewrite Hv. discriminate.
  - intro rest. split; [exact (showered_skip ev rest _ Hv)|].
    cbn [LHE.event_loop].
    destruct (LHE.loop_body ev s) as [s' [e|]]; [discriminate Hexn|reflexivity].
Qed.

(** C1, witness: an event without intermediate top quarks. *)
Lemma missing_roles_skipped_without_error_witness :
  LHE.validEvent (L := Stub.ngl) (N := Stub.np) (Stub.ev_noTop 1) = Ok false /\
  snd (LHE.loop_body (L := Stub.ngl) (N := Stub.np)
         (Stub.ev_noTop 1) Stub.start) = None.
Proof.
  destruct (missing_roles_skipped_without_error (L := Stub.ngl) (N := Stub.np)
              (Stub.ev_noTop 1) Stub.start eq_refl)
    as [Hv [Hexn _]].
  split; [exact Hv|exact Hexn].
Defined.

(** C1, counterexample: it is not the case that every event with a missing
    role makes its pass through the loop raise.  The event without
    intermediate top quarks is judged invalid and passed over in silence. *)
Lemma missing_roles_raise_nothing :
  ~ (forall (ev : Event.t) (s : LHE.state (L := Stub.ngl)),
       rolesPresent ev = false ->
       exists e, snd (LHE.loop_body (N := Stub.np) ev s) = Some e).
Proof.
  intro Hclaim.
  destruct (Hclaim (Stub.ev_noTop 1) Stub.start eq_refl) as [e He].
  rewrite loop_body_exn in He.
  rewrite (validEvent_roles (Stub.ev_noTop 1) eq_refl) in He.
  discriminate He.
Qed.

(** ** Python's [round] *)

Lemma round_half_even_near (y : Q) :
  inject_Z (round_half_even y) - (1 # 2) <= y
  /\ y <= inject_Z (round_half_even y) + (1 # 2).
Proof.
  pose proof (Qfloor_le y) as Hlo.
  pose proof (Qlt_floor y) as Hhi.
  rewrite inject_Z_plus in Hhi. change (inject_Z 1) with 1 in Hhi.
  unfold round_half_even.
  destruct (Qlt_bool (y - inject_Z (Qfloor y)) (1 # 2)) eqn:E1.
  - apply Qlt_bool_true in E1. split; lra.
  - apply Qlt_bool_false in E1.
    destruct (Qlt_bool (1 # 2) (y - inject_Z (Qfloor y))) eqn:E2.
    + rewrite inject_Z_plus. change (inject_Z 1) with 1. split; lra.
    + apply Qlt_bool_false in E2.
      destruct (Z.even (Qfloor y)).
      * split; lra.
      * rewrite inject_Z_plus. change (inject_Z 1) with 1. split; lra.
Qed.

(** A value is within half a unit of the last digit of its rounding. *)
Lemma round_near (x : Q) (ndigits : nat) :
  Qabs (x - round x ndigits)
  <= (1 # 2) / inject_Z (10 ^ Z.of_nat ndigits).
Proof.
  unfold round.
  set (p := inject_Z (10 ^ Z.of_nat ndigits)).
  assert (Hp : 0 < p).
  { unfold p. change 0 with (inject_Z 0). rewrite <- Zlt_Qlt.
    apply Z.pow_pos_nonneg; lia. }
  destruct (round_half_even_near (x * p)) as [Hlo Hhi].
  set (z := inject_Z (round_half_even (x * p))) in *.
  assert (E : (x - z / p) * p == x * p - z) by (field; lra).
  assert (Elo : - ((1 # 2) / p) * p == - (1 # 2)) by (field; lra).
  assert (Ehi : (1 # 2) / p * p == 1 # 2) by (field; lra).
  apply Qabs_Qle_condition. split; apply (Qmult_le_r _ _ p Hp).
  - rewrite Elo, E. lra.
  - rewrite Ehi, E. lra.
Qed.

(** ** C3: accumulate, then divide once *)

Section ShowerAccumulation.

Context {Rng : Type}.
Variable single :
  Event.t -> OutsideRegion.t -> nat -> Q -> Q -> Rng ->
  ShowerSpec.realization * Rng.
Variables (ev : Event.t) (outsideRegion : OutsideRegion.t).
Variables (nbins : nat) (tmax showerCutoff : Q).




End ShowerAccumulation.

Lemma last_cons {A : Type} (l : list A) (x d : A) :
  last (x :: l) d = last l x.
Proof.
  revert x d. induction l as [|y l IH]; intros x d; [reflexivity|].
  change (last (x :: y :: l) d) with (last (y :: l) d).
  rewrite (IH y d), (IH y x). reflexivity.
Qed.

Section EventLoop.

Context {L : ngl_resum} {N : numpy}.

(** What the loop leaves in the accumulators: the plain sums of the shower
    outputs of the valid events. *)
Lemma event_loop_accumulates (evtFile : list Event.t) (s s' : LHE.state) :
  LHE.event_loop evtFile s = (s', None) ->
  let outs := showered evtFile (LHE.rng s) in
  LHE.numberValidEvents s' = (LHE.numberValidEvents s + List.length outs)%nat
  /\ LHE.fullResultLL s'
     = Hist_sum (LHE.fullResultLL s) (map Shower.resLL outs)
  /\ LHE.fullNGL1Loop s'
     = fold_left Qplus (map Shower.ngl1Loop outs) (LHE.fullNGL1Loop s)
  /\ LHE.fullNGL2Loop s'
     = fold_left Qplus (map Shower.ngl2Loop outs) (LHE.fullNGL2Loop s)
  /\ LHE.shower s' = last (map Some outs) (LHE.shower s).
Proof.
  revert s. induction evtFile as [|ev rest IH]; intros s Hloop.
  - injection Hloop as <-. cbn. rewrite Nat.add_0_r. repeat split.
  - cbn [LHE.event_loop] in Hloop.
    pose proof (loop_body_exn ev s) as Hexn.
    destruct (LHE.loop_body ev s) as [s1 [e|]] eqn:Hbody; [discriminate Hloop|].
    cbn [snd] in Hexn.
    specialize (IH s1 Hloop). cbn zeta in IH.
    cbn [showered]. cbn zeta.
    destruct (LHE.validEvent ev) as [[|]|e] eqn:Hv; [| |discriminate Hexn].
    + pose proof (loop_body_valid ev s Hv) as Hs1.
      rewrite Hbody in Hs1. cbn [fst] in Hs1. cbn zeta in Hs1.
      unfold region in *.
      destruct (Shower_shower _ _ _ _ _ _ _) as [sh r].
      cbn [fst snd] in Hs1.
      destruct Hs1 as [Hsh [Hr [Hn [Hh [H1 H2]]]]].
      rewrite Hr, Hn, Hh, H1, H2, Hsh in IH.
      destruct IH as [IHn [IHh [IH1 [IH2 IHsh]]]].
      cbn [map List.length fold_left Hist_sum].
      rewrite IHn, IHh, IH1, IH2, IHsh, last_cons.
      repeat split; lia.
    + assert (Hnv : LHE.validEvent ev <> Ok true) by (rewrite Hv; discriminate).
      pose proof (loop_body_not_valid ev s Hnv) as Hs1.
      rewrite Hbody in Hs1. cbn [fst] in Hs1. cbn zeta in Hs1.
      destruct Hs1 as [Hsh [Hr [Hn [Hh [H1 H2]]]]].
      rewrite Hr, Hn, Hh, H1, H2, Hsh in IH. exact IH.
Qed.

(** What the normalisation cell does when it raises nothing. *)
Lemma cell9_divides (s s' : LHE.state) :
  LHE.cell9 s = (s', None) ->
  Hist.entries (LHE.fullResultLL s')
  = map (fun x => x / Qnat (LHE.numberValidEvents s))
      (Hist.entries (LHE.fullResultLL s))
  /\ LHE.fullNGL1Loop s' = LHE.fullNGL1Loop s / Qnat (LHE.numberValidEvents s)
  /\ LHE.fullNGL2Loop s' = LHE.fullNGL2Loop s / Qnat (LHE.numberValidEvents s)
  /\ LHE.numberValidEvents s' = LHE.numberValidEvents s
  /\ LHE.shower s' = LHE.shower s.
Proof.
  unfold LHE.cell9, Hist.idiv.
  destruct (Hist.errorHistCalc (LHE.fullResultLL s)); [discriminate|].
  destruct (Qeq_bool (Qnat (LHE.numberValidEvents s)) 0); [discriminate|].
  destruct (LHE.numberValidEvents s) as [|n]; cbn [pydiv eval];
    [discriminate|].
  intro H. injection H as <-. cbn. repeat split.
Qed.

(** The histogram of the loop never tracks errors, so the normalisation
    cell goes through as soon as one event was valid. *)
Lemma event_loop_plain_histogram (evtFile : list Event.t) (s s' : LHE.state) :
  LHE.event_loop evtFile s = (s', None) ->
  Hist.errorHistCalc (LHE.fullResultLL s') = Hist.errorHistCalc (LHE.fullResultLL s).
Proof.
  intro Hloop.
  destruct (event_loop_accumulates evtFile s s' Hloop) as [_ [Hh _]].
  rewrite Hh. clear. generalize (LHE.fullResultLL s) as h.
  induction (map Shower.resLL (showered evtFile (LHE.rng s))) as [|o hs IH];
    intro h; [reflexivity|].
  cbn [Hist_sum fold_left]. apply (IH (Hist.iadd h o)).
Qed.

Lemma cell9_succeeds (evtFile : list Event.t) (seed : Rng) (s : LHE.state) :
  LHE.event_loop evtFile (LHE.initial seed) = (s, None) ->
  LHE.numberValidEvents s <> 0%nat ->
  exists s', LHE.cell9 s = (s', None).
Proof.
  intros Hloop Hn.
  pose proof (event_loop_plain_histogram evtFile _ _ Hloop) as Hplain.
  cbn in Hplain. unfold LHE.cell9, Hist.idiv. rewrite Hplain.
  destruct (LHE.numberValidEvents s) as [|n]; [contradiction|].
  assert (E : Qeq_bool (Qnat (S n)) 0 = false).
  { destruct (Qeq_bool (Qnat (S n)) 0) eqn:E; [|reflexivity].
    apply Qeq_bool_eq in E. unfold Qnat, Qeq in E. cbn in E. lia. }
  rewrite E. cbn [pydiv eval]. eexists. reflexivity.
Qed.

End EventLoop.

(** *** What [+=] does to the bins *)

Lemma zipWith_length (f : Q -> Q -> Q) (xs ys : list Q) :
  List.length (Hist.zipWith f xs ys)
  = Nat.min (List.length xs) (List.length ys).
Proof.
  revert ys. induction xs as [|x xs IH]; intros [|y ys]; cbn; try reflexivity.
  now rewrite IH.
Qed.

Lemma zipWith_nth_error (f : Q -> Q -> Q) (xs ys : list Q) (i : nat) (x y : Q) :
  nth_error xs i = Some x ->
  nth_error ys i = Some y ->
  nth_error (Hist.zipWith f xs ys) i = Some (f x y).
Proof.
  revert ys i. induction xs as [|x0 xs IH]; intros [|y0 ys] [|i] Hx Hy;
    try discriminate.
  - cbn in *. injection Hx as <-. injection Hy as <-. reflexivity.
  - cbn in *. now apply IH.
Qed.






Section AccumulateThenDivide.

Context (L0 : ngl_resum) {N : numpy}.
Variable single :
  Event.t -> OutsideRegion.t -> nat -> Q -> Q -> @Rng L0 ->
  ShowerSpec.realization * @Rng L0.

Let L : ngl_resum := ShowerSpec.library L0 single.
#[local] Existing Instance L.

(** Every realization fills a histogram of the shower's shape. *)
Hypothesis single_shape :
  forall ev outsideRegion nbins tmax showerCutoff rng,
    List.length
      (Hist.entries
         (ShowerSpec.hist
            (fst (single ev outsideRegion nbins tmax showerCutoff rng))))
    = nbins.



End AccumulateThenDivide.


(** ** C4: dividing a histogram *)

Lemma map_nth_error_div (n : Q) (xs : list Q) (i : nat) (x : Q) :
  nth_error xs i = Some x ->
  nth_error (map (fun x => x / n) xs) i = Some (x / n).
Proof. intro H. exact (map_nth_error (fun x => x / n) i xs H). Qed.

(** C4.  Dividing a histogram by [n] (non-zero) raises the configuration
    error when the histogram tracks errors; without error tracking it
    succeeds, keeps the shape, and every bin of the result is the old bin
    divided by [n], exactly: multiplied back by [n] it is the old bin. *)
Theorem Hist_idiv_error_tracking (h : Hist.t) (n : Q) :
  ~ n == 0 ->
  if Hist.errorHistCalc h
  then Hist.idiv h n = Exc ConfigurationError
  else exists h',
         Hist.idiv h n = Ok h'
         /\ Hist.errorHistCalc h' = false
         /\ Hist.nbins h' = Hist.nbins h
         /\ List.length (Hist.entries h') = List.length (Hist.entries h)
         /\ forall i x,
              nth_error (Hist.entries h) i = Some x ->
              nth_error (Hist.entries h') i = Some (x / n)
              /\ x / n * n == x.
Proof.
  intro Hn. unfold Hist.idiv.
  destruct (Hist.errorHistCalc h); [reflexivity|].
  destruct (Qeq_bool n 0) eqn:E.
  - apply Qeq_bool_eq in E. contradiction.
  - eexists. split; [reflexivity|]. cbn.
    split; [reflexivity|]. split; [reflexivity|].
    split; [apply length_map|].
    intros i x Hi. split; [now apply map_nth_error_div|].
    field. exact Hn.
Qed.

(** C4, witness: the histogram [1; 2; 3] divided by 2, with and without
    error tracking. *)
Lemma Hist_idiv_error_tracking_witness :
  Hist.idiv Stub.hist_errors 2 = Exc ConfigurationError
  /\ exists h', Hist.idiv Stub.hist_plain 2 = Ok h'
                /\ nth_error (Hist.entries h') 2 = Some (3 / 2).
Proof.
  assert (H2 : ~ 2 == 0) by (intro H; discriminate H).
  split.
  - exact (Hist_idiv_error_tracking Stub.hist_errors 2 H2).
  - destruct (Hist_idiv_error_tracking Stub.hist_plain 2 H2)
      as [h' [Hdiv [_ [_ [_ Hbins]]]]].
    exists h'. split; [exact Hdiv|].
    exact (proj1 (Hbins 2%nat 3 eq_refl)).
Defined.

(** ** C5: unequal event weights *)

(** C5.  When the event's weight differs from the reference weight the pass
    compares it with ([eventWeight] as it stands at the comparison, after the
    conditional assignment above it), the pass prints the line
    "Warning: events not of equal weight!" and goes on: the reference weight
    is the positive one it had, the event is counted, the only exception the
    pass can raise is [validEvent]'s own, a valid event is showered and its
    outputs are added (bin by bin for the histogram), an invalid one is
    passed over, and the loop continues with the events that follow. *)
Theorem weight_mismatch_warns_and_continues
  {L : ngl_resum} {N : numpy} (ev : Event.t) (s : LHE.state) :
  let s' := fst (LHE.loop_body ev s) in
  let run := Shower_shower ev (region ev) LHE.nsh LHE.nbins LHE.tmax
               LHE.showerCutoff (LHE.rng s) in
  ~ LHE.eventWeight s' == Event.weight ev ->
  LHE.stdout s'
  = LHE.stdout s ++ [[PStr "Warning: events not of equal weight!"]]
  /\ (0 < LHE.eventWeight s /\ LHE.eventWeight s' = LHE.eventWeight s)
  /\ LHE.numberEvents s' = S (LHE.numberEvents s)
  /\ snd (LHE.loop_body ev s)
     = match LHE.validEvent ev with Exc e => Some e | Ok _ => None end
  /\ (LHE.validEvent ev = Ok true ->
      LHE.shower s' = Some (fst run)
      /\ LHE.numberValidEvents s' = S (LHE.numberValidEvents s)
      /\ List.length (Hist.entries (LHE.fullResultLL s'))
         = Nat.min (List.length (Hist.entries (LHE.fullResultLL s)))
             (List.length (Hist.entries (Shower.resLL (fst run))))
      /\ (forall i x y,
            nth_error (Hist.entries (LHE.fullResultLL s)) i = Some x ->
            nth_error (Hist.entries (Shower.resLL (fst run))) i = Some y ->
            nth_error (Hist.entries (LHE.fullResultLL s')) i = Some (x + y))
      /\ LHE.fullNGL1Loop s' = LHE.fullNGL1Loop s + Shower.ngl1Loop (fst run)
      /\ LHE.fullNGL2Loop s' = LHE.fullNGL2Loop s + Shower.ngl2Loop (fst run))
  /\ (LHE.validEvent ev = Ok false ->
      LHE.shower s' = LHE.shower s
      /\ LHE.numberValidEvents s' = LHE.numberValidEvents s
      /\ LHE.fullResultLL s' = LHE.fullResultLL s
      /\ LHE.fullNGL1Loop s' = LHE.fullNGL1Loop s
      /\ LHE.fullNGL2Loop s' = LHE.fullNGL2Loop s)
  /\ (forall rest b,
        LHE.validEvent ev = Ok b ->
        LHE.event_loop (ev :: rest) s = LHE.event_loop rest s').
Proof.
  intros s' run Hneq.
  assert (Hpos : 0 < LHE.eventWeight s
                 /\ LHE.eventWeight s' = LHE.eventWeight s).
  { subst s'. rewrite loop_body_eventWeight in Hneq |- *.
    destruct (Qlt_bool 0 (LHE.eventWeight s)) eqn:E.
    - apply Qlt_bool_true in E. split; [exact E|reflexivity].
    - exfalso. apply Hneq. reflexivity. }
  split.
  { subst s'. rewrite loop_body_stdout.
    destruct (Qeq_bool (LHE.eventWeight (fst (LHE.loop_body ev s)))
                (Event.weight ev)) eqn:E; [|reflexivity].
    apply Qeq_bool_eq in E. contradiction. }
  split; [exact Hpos|].
  split; [apply loop_body_numberEvents|].
  split; [apply loop_body_exn|].
  split; [|split].
  - intro Hv. destruct (loop_body_valid ev s Hv) as [Hsh [_ [Hn [Hh [H1 H2]]]]].
    fold s' in Hsh, Hn, Hh, H1, H2. fold run in Hsh, Hh, H1, H2.
    split; [exact Hsh|]. split; [exact Hn|].
    split; [rewrite Hh; apply zipWith_length|].
    split; [|split; assumption].
    intros i x y Hx Hy. rewrite Hh. now apply zipWith_nth_error.
  - intro Hv.
    assert (Hnv : LHE.validEvent ev <> Ok true) by (rewrite Hv; discriminate).
    destruct (loop_body_not_valid ev s Hnv) as [Hsh [_ [Hn [Hh [H1 H2]]]]].
    repeat split; assumption.
  - intros rest b Hv. subst s'. cbn [LHE.event_loop].
    pose proof (loop_body_exn ev s) as Hexn. rewrite Hv in Hexn.
    destruct (LHE.loop_body ev s) as [s1 [e|]]; [discriminate Hexn|reflexivity].
Qed.

(** C5, witness: after an event of weight 1, a valid event of weight 2. *)
Lemma weight_mismatch_warns_and_continues_witness :
  LHE.stdout (fst (LHE.loop_body (N := Stub.np) (Stub.ev_emu 2) Stub.after_first))
  = LHE.stdout Stub.after_first
    ++ [[PStr "Warning: events not of equal weight!"]]
  /\ LHE.numberValidEvents
       (fst (LHE.loop_body (N := Stub.np) (Stub.ev_emu 2) Stub.after_first))
     = 2%nat.
Proof.
  assert (Hneq :
    ~ LHE.eventWeight
        (fst (LHE.loop_body (N := Stub.np) (Stub.ev_emu 2) Stub.after_first))
      == Event.weight (Stub.ev_emu 2))
    by (intro H; vm_compute in H; discriminate H).
  destruct (weight_mismatch_warns_and_continues (L := Stub.ngl) (N := Stub.np)
              (Stub.ev_emu 2) Stub.after_first Hneq)
    as [Hout [_ [_ [_ [Hvalid _]]]]].
  split; [exact Hout|].
  assert (Hv : LHE.validEvent (L := Stub.ngl) (N := Stub.np) (Stub.ev_emu 2)
               = Ok true) by (vm_compute; reflexivity).
  destruct (Hvalid Hv) as [_ [Hn _]].
  rewrite Hn. vm_compute. reflexivity.
Defined.

(** ** C6: the stub of OutsideRegion and its replacement *)

(** C6.  On an OutsideRegion whose [outside] has not been replaced, a call
    signals "not configured" and returns no boolean, False included; once
    the caller has bound a predicate to the instance, a call returns that
    predicate's boolean on the instance.  This holds of the two bindings the
    notebooks make. *)
Theorem outside_stub_then_bound :
  (forall event v,
     OutsideRegion.outside (OutsideRegion.init event) v = Exc NotConfigured
     /\ forall b, OutsideRegion.outside (OutsideRegion.init event) v <> Ok b)
  /\ (forall self (p : OutsideRegion.t -> FourVector.t -> bool) v,
        OutsideRegion.outside
          (OutsideRegion.set_outside self (fun self v => Ok (p self v))) v
        = Ok (p self v))
  /\ (forall v,
        OutsideRegion.outside Dipole.outsideRegion v
        = Ok (Dipole._outside Dipole.outsideRegion0 v))
  /\ (forall (L : ngl_resum) ev v,
        OutsideRegion.outside (region ev) v
        = LHE._outside (OutsideRegion.init (Some ev)) v).
Proof.
  split; [|split; [|split]].
  - intros event v.
    assert (Hstub : OutsideRegion.outside (OutsideRegion.init event) v
                    = Exc NotConfigured) by reflexivity.
    split; [exact Hstub|].
    intros b Hb. rewrite Hstub in Hb. discriminate Hb.
  - intros self p v. unfold OutsideRegion.outside, OutsideRegion.set_outside.
    reflexivity.
  - intro v. unfold Dipole.outsideRegion, OutsideRegion.outside.
    reflexivity.
  - intros L ev v. unfold region, OutsideRegion.outside.
    reflexivity.
Qed.

(** ** C7: which events are showered *)

(** C7.  Amended: the shower is invoked and its outputs are accumulated
    exactly for the events on which [validEvent] returns True; and
    [validEvent] returns True only if the event holds exactly two
    intermediate top quarks, exactly two outgoing bottom quarks, exactly two
    outgoing charged leptons (electrons and muons) and exactly two outgoing
    neutrinos of the lepton flavours that are present (electron neutrinos
    count only when outgoingElectron is not None, muon neutrinos only when
    outgoingMuon is not None), and every outgoing bottom quark has
    pT >= 25, |rap| <= 2.4 and R2 >= 0.4^2 to each of the charged leptons. *)
Theorem showered_iff_valid
  {L : ngl_resum} {N : numpy} (ev : Event.t) (s : LHE.state) :
  let s' := fst (LHE.loop_body ev s) in
  let run := Shower_shower ev (region ev) LHE.nsh LHE.nbins LHE.tmax
               LHE.showerCutoff (LHE.rng s) in
  (LHE.numberValidEvents s' = S (LHE.numberValidEvents s)
   <-> LHE.validEvent ev = Ok true)
  /\ (LHE.validEvent ev = Ok true ->
      LHE.shower s' = Some (fst run)
      /\ LHE.rng s' = snd run
      /\ LHE.fullResultLL s'
         = Hist.iadd (LHE.fullResultLL s) (Shower.resLL (fst run))
      /\ LHE.fullNGL1Loop s' = LHE.fullNGL1Loop s + Shower.ngl1Loop (fst run)
      /\ LHE.fullNGL2Loop s' = LHE.fullNGL2Loop s + Shower.ngl2Loop (fst run))
  /\ (LHE.validEvent ev <> Ok true ->
      LHE.shower s' = LHE.shower s
      /\ LHE.rng s' = LHE.rng s
      /\ LHE.fullResultLL s' = LHE.fullResultLL s
      /\ LHE.fullNGL1Loop s' = LHE.fullNGL1Loop s
      /\ LHE.fullNGL2Loop s' = LHE.fullNGL2Loop s)
  /\ (LHE.validEvent ev = Ok true ->
      exists tops bottoms,
        Event.intermediateTop ev = Some tops /\ List.length tops = 2%nat /\
        Event.outgoingBottom ev = Some bottoms /\
        List.length bottoms = 2%nat /\
        List.length (chargedLeptons ev) = 2%nat /\
        List.length (flavourNeutrinos ev) = 2%nat /\
        forall b, In b bottoms ->
          25 <= FourVector.pT b /\ Qabs (FourVector.rap b) <= 2.4 /\
          forall l, In l (chargedLeptons ev) -> 0.4 ^ 2 <= FourVector_R2 b l).
Proof.
  intros s' run. split; [|split; [|split]].
  - split.
    + intro Hn.
      destruct (LHE.validEvent ev) as [[|]|e] eqn:Hv; [reflexivity| |].
      all: assert (Hnv : LHE.validEvent ev <> Ok true)
             by (rewrite Hv; discriminate).
      all: destruct (loop_body_not_valid ev s Hnv) as [_ [_ [Hsame _]]].
      all: fold s' in Hsame; rewrite Hsame in Hn; lia.
    + intro Hv. now destruct (loop_body_valid ev s Hv) as [_ [_ [Hn _]]].
  - intro Hv.
    destruct (loop_body_valid ev s Hv) as [Hsh [Hr [_ [Hh [H1 H2]]]]].
    repeat split; assumption.
  - intro Hnv.
    destruct (loop_body_not_valid ev s Hnv) as [Hsh [Hr [_ [Hh [H1 H2]]]]].
    repeat split; assumption.
  - apply validEvent_true.
Qed.

(** C7, counterexample: [validEvent] returns True on an event that holds
    three outgoing neutrinos: two muons with their two neutrinos, and an
    electron neutrino whose list is never read because the event has no
    electron. *)
Lemma valid_event_with_three_neutrinos :
  ~ (forall ev : Event.t,
       LHE.validEvent (L := Stub.ngl) (N := Stub.np) ev = Ok true ->
       List.length (neutrinos ev) = 2%nat).
Proof.
  intro Hclaim.
  assert (Hv : LHE.validEvent (L := Stub.ngl) (N := Stub.np)
                 Stub.ev_threeNeutrinos = Ok true)
    by (vm_compute; reflexivity).
  specialize (Hclaim Stub.ev_threeNeutrinos Hv).
  cbn in Hclaim. discriminate Hclaim.
Qed.

(** ** C8: the rapidity gap of the dipole example *)

Lemma Qabs_nonneg_bool (x : Q) : Qle_bool 0.0 (Qabs x) = true.
Proof.
  apply Qle_bool_iff. assert (E : 0.0 == 0) by reflexivity.
  rewrite E. apply Qabs_nonneg.
Qed.

(** C8.  The dipole example's predicate returns True exactly on the
    four-vectors with 0 <= |rap| < 0.8.  With the rapidities the library
    gives the two test vectors (0 for the light-like vector along the y-axis,
    of modulus at least 0.8 for the one along the z-axis), the first is
    outside (True) and the second inside (False), as the notebook records. *)
Theorem dipole_outside_is_rapidity_gap
  {L : ngl_resum} (self : OutsideRegion.t) :
  FourVector.rap Dipole.fvOut == 0 ->
  0.8 <= Qabs (FourVector.rap Dipole.fvIn) ->
  (forall v,
     Dipole._outside self v = true
     <-> 0 <= Qabs (FourVector.rap v) /\ Qabs (FourVector.rap v) < 0.8)
  /\ Dipole._outside self Dipole.fvOut = true
  /\ Dipole._outside self Dipole.fvIn = false
  /\ OutsideRegion.outside Dipole.outsideRegion Dipole.fvOut = Ok Dipole.Out11
  /\ OutsideRegion.outside Dipole.outsideRegion Dipole.fvIn = Ok Dipole.Out12.
Proof.
  intros Hout Hin.
  assert (Hgap : forall self v,
    Dipole._outside self v = true
    <-> 0 <= Qabs (FourVector.rap v) /\ Qabs (FourVector.rap v) < 0.8).
  { intros self0 v. unfold Dipole._outside. cbn zeta.
    rewrite Qabs_nonneg_bool, andb_true_r, Qlt_bool_true.
    split; [intro H; split; [apply Qabs_nonneg|exact H]|intros [_ H]; exact H]. }
  assert (HfvOut : forall self, Dipole._outside self Dipole.fvOut = true).
  { intro self0. apply Hgap. split; [apply Qabs_nonneg|].
    rewrite Hout. reflexivity. }
  assert (HfvIn : forall self, Dipole._outside self Dipole.fvIn = false).
  { intro self0. destruct (Dipole._outside self0 Dipole.fvIn) eqn:E;
      [|reflexivity].
    apply Hgap in E. destruct E as [_ E]. exfalso.
    apply (Qlt_not_le _ _ E). exact Hin. }
  split; [apply Hgap|]. split; [apply HfvOut|]. split; [apply HfvIn|].
  unfold Dipole.outsideRegion, OutsideRegion.outside. cbn.
  rewrite HfvOut, HfvIn. split; reflexivity.
Qed.

(** C8, witness: the stand-in library, whose rapidity is 0 at pz = 0 and
    large at |pz| = e. *)
Lemma dipole_outside_is_rapidity_gap_witness :
  Dipole._outside Dipole.outsideRegion0 (Dipole.fvOut (L := Stub.ngl)) = true
  /\ Dipole._outside Dipole.outsideRegion0 (Dipole.fvIn (L := Stub.ngl)) = false.
Proof.
  assert (Hout : FourVector.rap (Dipole.fvOut (L := Stub.ngl)) == 0)
    by reflexivity.
  assert (Hin : 0.8 <= Qabs (FourVector.rap (Dipole.fvIn (L := Stub.ngl))))
    by (vm_compute; discriminate).
  destruct (dipole_outside_is_rapidity_gap (L := Stub.ngl)
              Dipole.outsideRegion0 Hout Hin) as [_ [H1 [H2 _]]].
  split; [exact H1|exact H2].
Defined.

(** ** C9: the reference weight while it is not positive *)

Section ReferenceWeight.

Context {L : ngl_resum} {N : numpy}.

(** A pass that starts with a reference weight that is not strictly
    positive takes the event's weight as reference and prints nothing. *)
Lemma loop_body_overwrites (ev : Event.t) (s : LHE.state) :
  ~ 0 < LHE.eventWeight s ->
  LHE.eventWeight (fst (LHE.loop_body ev s)) = Event.weight ev
  /\ LHE.stdout (fst (LHE.loop_body ev s)) = LHE.stdout s.
Proof.
  intro Hnp.
  assert (Hw : LHE.eventWeight (fst (LHE.loop_body ev s)) = Event.weight ev).
  { rewrite loop_body_eventWeight.
    destruct (Qlt_bool 0 (LHE.eventWeight s)) eqn:E; [|reflexivity].
    apply Qlt_bool_true in E. contradiction. }
  split; [exact Hw|].
  rewrite loop_body_stdout, Hw, Qeq_bool_refl. reflexivity.
Qed.

Lemma event_loop_nonpositive (evtFile : list Event.t) (s : LHE.state) :
  LHE.eventWeight s <= 0 ->
  (forall ev, In ev evtFile -> Event.weight ev <= 0) ->
  LHE.stdout (fst (LHE.event_loop evtFile s)) = LHE.stdout s
  /\ LHE.eventWeight (fst (LHE.event_loop evtFile s)) <= 0.
Proof.
  revert s. induction evtFile as [|ev rest IH]; intros s Hs Hall.
  - split; [reflexivity|exact Hs].
  - assert (Hnp : ~ 0 < LHE.eventWeight s) by (apply Qle_not_lt; exact Hs).
    destruct (loop_body_overwrites ev s Hnp) as [Hw Hout].
    cbn [LHE.event_loop].
    destruct (LHE.loop_body ev s) as [s1 [e|]]; cbn [fst] in *.
    + split; [exact Hout|]. rewrite Hw. apply Hall. now left.
    + destruct (IH s1) as [IHout IHw].
      * rewrite Hw. apply Hall. now left.
      * intros ev' Hin. apply Hall. now right.
      * split; [now rewrite IHout|exact IHw].
Qed.

End ReferenceWeight.

(** C9.  In an iteration that starts with a reference weight that is not
    strictly positive, eventWeight is overwritten with the event's weight
    before the comparison, which then finds them equal.  Hence, from the
    initial reference weight 0, a batch whose event weights are all
    non-positive prints no warning, whatever the weights are: nothing at all
    is printed by the loop, whether it runs to its end or stops at an
    exception. *)
Theorem nonpositive_weights_never_warn
  {L : ngl_resum} {N : numpy} (evtFile : list Event.t) (seed : Rng) :
  (forall ev, In ev evtFile -> Event.weight ev <= 0) ->
  (forall ev (s : LHE.state),
     ~ 0 < LHE.eventWeight s ->
     LHE.eventWeight (fst (LHE.loop_body ev s)) = Event.weight ev
     /\ LHE.stdout (fst (LHE.loop_body ev s)) = LHE.stdout s)
  /\ LHE.stdout (fst (LHE.event_loop evtFile (LHE.initial seed))) = []
  /\ warnings (fst (LHE.event_loop evtFile (LHE.initial seed))) = 0%nat.
Proof.
  intro Hall.
  split; [exact loop_body_overwrites|].
  assert (Hinit : LHE.eventWeight (LHE.initial seed) <= 0)
    by (cbn; apply Qle_refl).
  destruct (event_loop_nonpositive evtFile (LHE.initial seed) Hinit Hall)
    as [Hout _].
  cbn [LHE.initial LHE.stdout] in Hout.
  split; [exact Hout|].
  unfold warnings. rewrite Hout. reflexivity.
Qed.

(** C9, witness: three events of weights -1, -2 and 0. *)
Lemma nonpositive_weights_never_warn_witness :
  warnings (fst (LHE.event_loop (N := Stub.np) Stub.batch_nonpositive Stub.start))
  = 0%nat.
Proof.
  assert (Hall : forall ev, In ev Stub.batch_nonpositive -> Event.weight ev <= 0).
  { intros ev [<-|[<-|[<-|[]]]]; vm_compute; discriminate. }
  exact (proj2 (proj2
           (nonpositive_weights_never_warn (L := Stub.ngl) (N := Stub.np)
              Stub.batch_nonpositive 0%nat Hall))).
Defined.

(** ** C10: what the display cells show *)

(** C10.  After the loop and the normalisation cell, the two display cells
    show [round(shower.ngl1Loop,4)] and
    [round(shower.ngl2Loop+0.5*shower.ngl1Loop**2,4)] of the shower object of
    the last valid event.  The accumulators, which by then hold the sums over
    the valid events divided by their number, do not enter: the cells show
    the same before and after the division. *)
Theorem display_shows_last_shower
  {L : ngl_resum} {N : numpy}
  (evtFile : list Event.t) (seed : Rng) (s s' : LHE.state) :
  LHE.event_loop evtFile (LHE.initial seed) = (s, None) ->
  LHE.cell9 s = (s', None) ->
  let outs := showered evtFile seed in
  (exists sh,
     last (map Some outs) None = Some sh
     /\ LHE.cell11 s' = Ok (round (Shower.ngl1Loop sh) 4)
     /\ LHE.cell12 s'
        = Ok (round (Shower.ngl2Loop sh + 0.5 * Shower.ngl1Loop sh ^ 2) 4))
  /\ LHE.cell11 s' = LHE.cell11 s
  /\ LHE.cell12 s' = LHE.cell12 s
  /\ LHE.fullNGL1Loop s'
     = Qsum (map Shower.ngl1Loop outs) / Qnat (List.length outs)
  /\ LHE.fullNGL2Loop s'
     = Qsum (map Shower.ngl2Loop outs) / Qnat (List.length outs).
Proof.
  intros Hloop Hdiv outs.
  destruct (event_loop_accumulates evtFile _ _ Hloop)
    as [Hn [_ [H1 [H2 Hsh]]]].
  cbn [LHE.initial LHE.numberValidEvents LHE.rng LHE.shower
       LHE.fullNGL1Loop LHE.fullNGL2Loop Nat.add] in Hn, H1, H2, Hsh.
  destruct (cell9_divides _ _ Hdiv) as [_ [D1 [D2 [_ Dsh]]]].
  assert (Hpos : LHE.numberValidEvents s <> 0%nat).
  { intro Hz. unfold LHE.cell9, Hist.idiv in Hdiv. rewrite Hz in Hdiv.
    destruct (Hist.errorHistCalc (LHE.fullResultLL s)); discriminate Hdiv. }
  fold outs in Hn, H1, H2, Hsh.
  split; [|split; [|split; [|split]]].
  - destruct (last (map Some outs) None) as [sh|] eqn:Hlast.
    + exists sh. split; [reflexivity|].
      unfold LHE.cell11, LHE.cell12. rewrite Dsh, Hsh. split; reflexivity.
    + exfalso. apply Hpos. rewrite Hn.
      destruct outs as [|o outs']; [reflexivity|].
      exfalso. cbn [map] in Hlast. rewrite last_cons in Hlast.
      clear - Hlast.
      revert o Hlast. induction outs' as [|o' outs' IH]; intros o Hlast.
      * discriminate Hlast.
      * cbn [map] in Hlast. rewrite last_cons in Hlast. exact (IH o' Hlast).
  - unfold LHE.cell11. now rewrite Dsh.
  - unfold LHE.cell12. now rewrite Dsh.
  - rewrite D1, H1, Hn. reflexivity.
  - rewrite D2, H2, Hn. reflexivity.
Qed.

(** C10, witness: on the file of three events the one-loop cell shows the
    second valid event's coefficient, -610, while the normalised accumulator
    holds the average, -410. *)
Lemma display_shows_last_shower_witness :
  LHE.cell11
    (fst (LHE.cell9 (fst (LHE.event_loop (N := Stub.np) Stub.batch Stub.start))))
  = Ok (round (-610) 4)
  /\ LHE.fullNGL1Loop
       (fst (LHE.cell9
               (fst (LHE.event_loop (N := Stub.np) Stub.batch Stub.start))))
     == -410.
Proof.
  assert (Hloop :
    LHE.event_loop (L := Stub.ngl) (N := Stub.np) Stub.batch
      (LHE.initial (L := Stub.ngl) 0%nat)
    = (fst (LHE.event_loop (N := Stub.np) Stub.batch Stub.start), None))
    by (vm_compute; reflexivity).
  assert (Hdiv :
    LHE.cell9 (fst (LHE.event_loop (N := Stub.np) Stub.batch Stub.start))
    = (fst (LHE.cell9
              (fst (LHE.event_loop (N := Stub.np) Stub.batch Stub.start))),
       None))
    by (vm_compute; reflexivity).
  destruct (display_shows_last_shower (L := Stub.ngl) (N := Stub.np)
              Stub.batch 0%nat _ _ Hloop Hdiv)
    as [[sh [Hlast [H11 _]]] [_ [_ [Havg _]]]].
  split.
  - rewrite H11.
    assert (Hsh : Some sh
                  = last (map Some (showered (L := Stub.ngl) (N := Stub.np)
                                      Stub.batch 0%nat)) None)
      by (symmetry; exact Hlast).
    vm_compute in Hsh. injection Hsh as ->. vm_compute. reflexivity.
  - rewrite Havg. vm_compute. reflexivity.
Defined.

(** * Further properties of the drivers *)

(** ** The verdict of [validEvent] *)

Section ValidEventVerdict.
Context {L : ngl_resum} {N : numpy}.
Import FourVector.

(** [validEvent] in closed form: TypeError when it comes to iterate over a
    neutrino list that is None, and else the conjunction of its cuts. *)
Lemma validEvent_eq (ev : Event.t) :
  LHE.validEvent ev
  = if readsMissingNeutrinos ev then Exc TypeError else Ok (passesCuts ev).
Proof.
  unfold LHE.validEvent, readsMissingNeutrinos, passesCuts, neutrinosReadable,
    flavourCut, electronMuon, dileptonMass, rolesPresent, chargedLeptons,
    flavourNeutrinos.
  destruct (Event.intermediateTop ev) as [tops|]; [|reflexivity].
  destruct (Event.outgoingBottom ev) as [bottoms|]; [|reflexivity].
  cbn [is_None ifret bind len].
  destruct (is_None (Event.outgoingElectron ev) && is_None (Event.outgoingMuon ev))
    eqn:Hnone; cbn [ifret bind negb andb]; [reflexivity|].
  destruct (List.length tops =? 2)%nat eqn:Ht; cbn [ifret bind negb andb];
    [|reflexivity].
  destruct (List.length bottoms =? 2)%nat eqn:Hb; cbn [ifret bind negb andb];
    [|reflexivity].
  apply Nat.eqb_eq in Hb. clear Hnone Ht.
  destruct bottoms as [|b0 [|b1 [|? ?]]]; try discriminate Hb. clear Hb.
  destruct (Event.outgoingElectron ev) as [els|];
    cbn [is_None negb iter bind opt_list app andb orb].
  1: rewrite (foreach_cuts (fun i => Qlt_bool (eT i) 25)
                  (fun i => Qlt_bool 2.47 (Qabs (rap i))) false)
       by reflexivity;
     change (forallb _ els) with (forallb electronCut els);
     destruct (forallb electronCut els); cbn [bind andb orb];
     [|destruct (Event.outgoingMuon ev); destruct (Event.outgoingMNeutrino ev); cbn; rewrite ?andb_false_r; reflexivity];
     destruct (Event.outgoingENeutrino ev) as [nue|];
       cbn [is_None negb iter bind opt_list andb orb]; [|reflexivity];
     rewrite foreach_collect; cbn [bind app].
  all: destruct (Event.outgoingMuon ev) as [mus|];
    cbn [is_None negb iter bind opt_list app andb orb].
  1,3: rewrite (foreach_cuts (fun i => Qlt_bool (pT i) 20)
                  (fun i => Qlt_bool 2.5 (Qabs (rap i))) false)
       by reflexivity;
     change (forallb (fun i => negb (Qlt_bool (pT i) 20)
                               && negb (Qlt_bool 2.5 (Qabs (rap i)))) mus)
       with (forallb muonCut mus);
     destruct (forallb muonCut mus); cbn [bind andb orb];
     [|reflexivity];
     destruct (Event.outgoingMNeutrino ev) as [num|];
       cbn [is_None negb iter bind opt_list andb orb]; [|reflexivity];
     rewrite foreach_collect; cbn [bind app].
  all: rewrite ?app_nil_r.
  all: try reflexivity.
  all: repeat match goal with
       | |- context [Nat.eqb (List.length ?l) 2] =>
           lazymatch l with nil => fail | _ => idtac end;
           tryif is_var l then fail else (generalize l; intro)
       end.
  all: repeat match goal with
       | |- context [Nat.eqb (List.length ?l) 2] =>
           is_var l; destruct l as [|? [|? [|? ?]]];
           cbn [List.length Nat.eqb negb ifret bind run]; try reflexivity
       end.
  all: cbn [getitem subscript nth_error bind negb].
  all: repeat match goal with
       | |- context [ifret ?c false] =>
           destruct c eqn:?; cbn [ifret bind run negb andb]; [reflexivity|]
       end.
  all: erewrite (foreach_nested (fun i => Qlt_bool (pT i) 25)
                  (fun i => Qlt_bool 2.4 (Qabs (rap i)))
                  (fun i j => Qlt_bool (FourVector_R2 i j) (0.4 ^ 2)) false)
         by reflexivity.
  all: match goal with
       | |- context [forallb (bottomCut ?ls) ?bs] =>
           change (forallb (bottomCut ls) bs)
             with (forallb (fun i => negb (Qlt_bool (pT i) 25)
                              && negb (Qlt_bool 2.4 (Qabs (rap i)))
                              && forallb (fun j => negb (Qlt_bool (FourVector_R2 i j) (0.4 ^ 2))) ls) bs)
       end.
  all: match goal with
       | |- context [forallb ?f [?x; ?y]] =>
           destruct (forallb f [x; y]); reflexivity
       end.
Qed.

Lemma passesCuts_readable (ev : Event.t) :
  passesCuts ev = true -> neutrinosReadable ev = true.
Proof.
  unfold passesCuts. intro H.
  repeat (apply andb_true_iff in H; destruct H as [H ?]). assumption.
Qed.

Lemma readable_not_missing (ev : Event.t) :
  neutrinosReadable ev = true -> readsMissingNeutrinos ev = false.
Proof.
  unfold neutrinosReadable, readsMissingNeutrinos.
  destruct (Event.outgoingElectron ev), (Event.outgoingENeutrino ev),
    (Event.outgoingMuon ev), (Event.outgoingMNeutrino ev);
    cbn [is_None negb andb orb opt_list]; intro H; try discriminate H;
    rewrite ?andb_false_r, ?orb_false_r; cbn [andb orb];
    rewrite ?andb_false_r; reflexivity.
Qed.

(** X1.  [validEvent] returns True exactly for the events that pass every
    cut: the roles and multiplicities, the cuts on each electron and each
    muon, the neutrino list of each lepton flavour present, two charged
    leptons and two neutrinos, the flavour-dependent cut, and the cuts on
    both bottom quarks. *)
Theorem validEvent_true_iff_passesCuts (ev : Event.t) :
  LHE.validEvent ev = Ok true <-> passesCuts ev = true.
Proof.
  rewrite validEvent_eq. split.
  - destruct (readsMissingNeutrinos ev); [discriminate|].
    intro H. now injection H.
  - intro H.
    rewrite (readable_not_missing ev (passesCuts_readable ev H)), H.
    reflexivity.
Qed.

(** X2.  The only exception [validEvent] raises is TypeError, and it raises
    it exactly when it comes to iterate over a neutrino list that is None;
    the two indexings [0] and [1] never go out of range.  An event in which
    each lepton flavour present has its neutrino list gets a verdict. *)
Theorem validEvent_raises_iff (ev : Event.t) :
  (forall e,
     LHE.validEvent ev = Exc e
     <-> e = TypeError /\ readsMissingNeutrinos ev = true)
  /\ (neutrinosReadable ev = true -> exists b, LHE.validEvent ev = Ok b).
Proof.
  split.
  - intro e. rewrite validEvent_eq.
    destruct (readsMissingNeutrinos ev); split.
    + intro H. injection H as <-. now split.
    + intros [-> _]. reflexivity.
    + discriminate.
    + intros [_ H]. discriminate H.
  - intro H. rewrite validEvent_eq, (readable_not_missing ev H).
    eexists. reflexivity.
Qed.

Lemma electronCut_spec (i : FourVector.t) :
  electronCut i = true -> 25 <= eT i /\ Qabs (rap i) <= 2.47.
Proof.
  unfold electronCut. intro H. apply andb_true_iff in H. destruct H as [H1 H2].
  apply negb_true_iff in H1, H2. apply Qlt_bool_false in H1, H2. now split.
Qed.

Lemma muonCut_spec (i : FourVector.t) :
  muonCut i = true -> 20 <= pT i /\ Qabs (rap i) <= 2.5.
Proof.
  unfold muonCut. intro H. apply andb_true_iff in H. destruct H as [H1 H2].
  apply negb_true_iff in H1, H2. apply Qlt_bool_false in H1, H2. now split.
Qed.

(** X3.  In an event judged valid every outgoing electron has eT >= 25 and
    |rap| <= 2.47, and every outgoing muon has pT >= 20 and |rap| <= 2.5. *)
Theorem validEvent_lepton_cuts (ev : Event.t) :
  LHE.validEvent ev = Ok true ->
  (forall i, In i (opt_list (Event.outgoingElectron ev)) ->
     25 <= eT i /\ Qabs (rap i) <= 2.47)
  /\ (forall i, In i (opt_list (Event.outgoingMuon ev)) ->
       20 <= pT i /\ Qabs (rap i) <= 2.5).
Proof.
  rewrite validEvent_eq.
  destruct (readsMissingNeutrinos ev); [discriminate|].
  intro H. injection H as H. unfold passesCuts in H.
  repeat (apply andb_true_iff in H; destruct H as [H ?]).
  split; intros i Hi.
  - apply electronCut_spec.
    match goal with
    | He : forallb electronCut _ = true |- _ =>
        rewrite forallb_forall in He; exact (He i Hi)
    end.
  - apply muonCut_spec.
    match goal with
    | Hm : forallb muonCut _ = true |- _ =>
        rewrite forallb_forall in Hm; exact (Hm i Hi)
    end.
Qed.

(** X4.  An event judged valid has two charged leptons, two neutrinos of
    their flavours and two bottom quarks; if it has both an electron list
    and a muon list, the four transverse momenta add up to at least 130;
    otherwise the two neutrinos have eT >= 40 together, and either the
    squared dilepton mass is negative (np.sqrt then gives nan, and both
    comparisons of the mass cut are False), or the dilepton mass is at least
    15 and at least 10 away from 91. *)
Theorem validEvent_flavour_cuts (ev : Event.t) :
  LHE.validEvent ev = Ok true ->
  exists l0 l1 n0 n1 b0 b1,
    chargedLeptons ev = [l0; l1]
    /\ flavourNeutrinos ev = [n0; n1]
    /\ Event.outgoingBottom ev = Some [b0; b1]
    /\ (electronMuon ev = true ->
        130 <= pT l0 + pT l1 + pT b0 + pT b1)
    /\ (electronMuon ev = false ->
        let m2 := FourVector_mul (FourVector_add l0 l1) (FourVector_add l0 l1) in
        40 <= eT (FourVector_add n0 n1)
        /\ (m2 < 0
            \/ (0 <= m2
                /\ 15 <= np_sqrt m2
                /\ 10 <= Qabs (np_sqrt m2 - 91)))).
Proof.
  rewrite validEvent_eq.
  destruct (readsMissingNeutrinos ev); [discriminate|].
  intro H. injection H as H. unfold passesCuts in H.
  apply andb_true_iff in H. destruct H as [H Hmatch].
  repeat (apply andb_true_iff in H; destruct H as [H ?]).
  unfold rolesPresent in H.
  destruct (Event.intermediateTop ev); [|discriminate H].
  destruct (Event.outgoingBottom ev) as [bottoms|]; [|discriminate H].
  cbn [opt_list] in Hmatch.
  destruct (chargedLeptons ev) as [|l0 [|l1 [|? ?]]]; try discriminate Hmatch.
  destruct (flavourNeutrinos ev) as [|n0 [|n1 [|? ?]]]; try discriminate Hmatch.
  destruct bottoms as [|b0 [|b1 [|? ?]]]; try discriminate Hmatch.
  apply andb_true_iff in Hmatch. destruct Hmatch as [Hflav _].
  exists l0, l1, n0, n1, b0, b1.
  repeat (split; [reflexivity|]).
  unfold flavourCut in Hflav.
  split; intro Hem; rewrite Hem in Hflav.
  - apply negb_true_iff in Hflav. now apply Qlt_bool_false in Hflav.
  - cbn zeta.
    apply andb_true_iff in Hflav. destruct Hflav as [Hmet Hmass].
    apply negb_true_iff in Hmet, Hmass. apply Qlt_bool_false in Hmet.
    split; [exact Hmet|].
    unfold dileptonMass, sqrt_or_nan in Hmass.
    destruct (Qlt_bool
                (FourVector_mul (FourVector_add l0 l1) (FourVector_add l0 l1))
                0) eqn:Hneg.
    + left. now apply Qlt_bool_true.
    + right. apply Qlt_bool_false in Hneg. split; [exact Hneg|].
      cbn [nan_lt nan_abs_sub] in Hmass.
      apply orb_false_iff in Hmass. destruct Hmass as [H15 H91].
      apply Qlt_bool_false in H15, H91. split; assumption.
Qed.

End ValidEventVerdict.

(** ** The outside region of an event *)

Section OutsideOfEvent.
Context {L : ngl_resum} {N : numpy}.

(** The predicate once the event and its bottom quarks are at hand. *)
Lemma LHE_outside_unfold
  (self : OutsideRegion.t) (v : FourVector.t) (ev : Event.t)
  (bottoms : list FourVector.t) :
  OutsideRegion.event self = Some ev ->
  Event.outgoingBottom ev = Some bottoms ->
  LHE._outside self v
  = match bottoms with
    | [] => Exc IndexError
    | b0 :: tl =>
        if Qeq_bool (FourVector.e b0) 0 then Exc ZeroDivisionError
        else match tl with
             | [] => Exc IndexError
             | b1 :: _ =>
                 if Qeq_bool (FourVector.e b1) 0 then Exc ZeroDivisionError
                 else Ok (Qlt_bool (0.4 ^ 2)
                            (FourVector_R2 v
                               (FourVector_truediv b0 (FourVector.e b0)))
                          && Qlt_bool (0.4 ^ 2)
                               (FourVector_R2 v
                                  (FourVector_truediv b1 (FourVector.e b1)))
                          && Qlt_bool (Qabs (FourVector.rap v)) 0.8
                          && Qle_bool 0.0 (Qabs (FourVector.rap v)))
             end
    end.
Proof.
  intros Hev Hbot. unfold LHE._outside. rewrite Hev. cbn [bind eval].
  rewrite Hbot.
  destruct bottoms as [|b0 tl];
    cbn [subscript getitem nth_error bind eval]; [reflexivity|].
  unfold truediv.
  destruct (Qeq_bool (FourVector.e b0) 0); cbn [bind eval]; [reflexivity|].
  destruct tl as [|b1 rest];
    cbn [subscript getitem nth_error bind eval]; [reflexivity|].
  destruct (Qeq_bool (FourVector.e b1) 0); cbn [bind eval]; reflexivity.
Qed.

(** X5.  The outside predicate of the LHE example returns a boolean exactly
    when its instance holds an event with at least two outgoing bottom
    quarks of which the first two have non-zero energy.  Without event it
    raises AttributeError, with outgoingBottom None TypeError, with an empty
    list IndexError; a first bottom quark of zero energy raises
    ZeroDivisionError (also when it is the only one), a single bottom quark
    of non-zero energy IndexError, and a second bottom quark of zero energy,
    after a first of non-zero energy, ZeroDivisionError. *)
Theorem LHE_outside_defined_iff (self : OutsideRegion.t) (v : FourVector.t) :
  ((exists b, LHE._outside self v = Ok b)
   <-> exists ev b0 b1 rest,
         OutsideRegion.event self = Some ev
         /\ Event.outgoingBottom ev = Some (b0 :: b1 :: rest)
         /\ ~ FourVector.e b0 == 0
         /\ ~ FourVector.e b1 == 0)
  /\ (OutsideRegion.event self = None ->
      LHE._outside self v = Exc AttributeError)
  /\ (forall ev,
        OutsideRegion.event self = Some ev ->
        Event.outgoingBottom ev = None ->
        LHE._outside self v = Exc TypeError)
  /\ (forall ev,
        OutsideRegion.event self = Some ev ->
        Event.outgoingBottom ev = Some [] ->
        LHE._outside self v = Exc IndexError)
  /\ (forall ev b0 rest,
        OutsideRegion.event self = Some ev ->
        Event.outgoingBottom ev = Some (b0 :: rest) ->
        FourVector.e b0 == 0 ->
        LHE._outside self v = Exc ZeroDivisionError)
  /\ (forall ev b0,
        OutsideRegion.event self = Some ev ->
        Event.outgoingBottom ev = Some [b0] ->
        ~ FourVector.e b0 == 0 ->
        LHE._outside self v = Exc IndexError)
  /\ (forall ev b0 b1 rest,
        OutsideRegion.event self = Some ev ->
        Event.outgoingBottom ev = Some (b0 :: b1 :: rest) ->
        ~ FourVector.e b0 == 0 ->
        FourVector.e b1 == 0 ->
        LHE._outside self v = Exc ZeroDivisionError).
Proof.
  split; [split|].
  - intros [b Hb].
    destruct (OutsideRegion.event self) as [ev|] eqn:Hev;
      [|unfold LHE._outside in Hb; rewrite Hev in Hb; discriminate Hb].
    destruct (Event.outgoingBottom ev) as [bottoms|] eqn:Hbot;
      [|unfold LHE._outside in Hb; rewrite Hev in Hb; cbn [bind eval] in Hb;
        rewrite Hbot in Hb; discriminate Hb].
    rewrite (LHE_outside_unfold self v ev bottoms Hev Hbot) in Hb.
    destruct bottoms as [|b0 [|b1 rest]]; try discriminate Hb.
    + destruct (Qeq_bool (FourVector.e b0) 0); discriminate Hb.
    + destruct (Qeq_bool (FourVector.e b0) 0) eqn:E0; [discriminate Hb|].
      destruct (Qeq_bool (FourVector.e b1) 0) eqn:E1; [discriminate Hb|].
      exists ev, b0, b1, rest.
      split; [reflexivity|]. split; [exact Hbot|].
      split; intro Hz; apply Qeq_bool_iff in Hz; congruence.
  - intros (ev & b0 & b1 & rest & Hev & Hbot & H0 & H1).
    rewrite (LHE_outside_unfold self v ev _ Hev Hbot).
    destruct (Qeq_bool (FourVector.e b0) 0) eqn:E0;
      [apply Qeq_bool_iff in E0; contradiction|].
    destruct (Qeq_bool (FourVector.e b1) 0) eqn:E1;
      [apply Qeq_bool_iff in E1; contradiction|].
    eexists. reflexivity.
  - split; [|split; [|split; [|split; [|split]]]].
    + intro Hev. unfold LHE._outside. rewrite Hev. reflexivity.
    + intros ev Hev Hbot. unfold LHE._outside. rewrite Hev. cbn [bind eval].
      rewrite Hbot. reflexivity.
    + intros ev Hev Hbot.
      now rewrite (LHE_outside_unfold self v ev _ Hev Hbot).
    + intros ev b0 rest Hev Hbot H0.
      rewrite (LHE_outside_unfold self v ev _ Hev Hbot).
      apply Qeq_bool_iff in H0. now rewrite H0.
    + intros ev b0 Hev Hbot H0.
      rewrite (LHE_outside_unfold self v ev _ Hev Hbot).
      destruct (Qeq_bool (FourVector.e b0) 0) eqn:E0;
        [apply Qeq_bool_iff in E0; contradiction|reflexivity].
    + intros ev b0 b1 rest Hev Hbot H0 H1.
      rewrite (LHE_outside_unfold self v ev _ Hev Hbot).
      destruct (Qeq_bool (FourVector.e b0) 0) eqn:E0;
        [apply Qeq_bool_iff in E0; contradiction|].
      apply Qeq_bool_iff in H1. now rewrite H1.
Qed.

(** X6.  On the outside region the loop builds for an event judged valid,
    the gate of [validEvent] secures the two bottom quarks the predicate
    indexes, not their energies: [outside] returns a boolean for every
    four-vector when both bottom quarks have non-zero energy, and raises
    ZeroDivisionError when one of them has zero energy. *)
Theorem outside_total_on_valid_events (ev : Event.t) (v : FourVector.t) :
  LHE.validEvent ev = Ok true ->
  exists b0 b1,
    Event.outgoingBottom ev = Some [b0; b1]
    /\ (~ FourVector.e b0 == 0 -> ~ FourVector.e b1 == 0 ->
        exists b, OutsideRegion.outside (region ev) v = Ok b)
    /\ (FourVector.e b0 == 0 \/ FourVector.e b1 == 0 ->
        OutsideRegion.outside (region ev) v = Exc ZeroDivisionError).
Proof.
  intro Hv.
  destruct (validEvent_true ev Hv) as [tops [bottoms [_ [_ [Hb [Hlen _]]]]]].
  destruct bottoms as [|b0 [|b1 [|? ?]]]; try discriminate Hlen.
  exists b0, b1. split; [exact Hb|].
  assert (Hout : OutsideRegion.outside (region ev) v
                 = LHE._outside (region ev) v) by reflexivity.
  rewrite Hout.
  rewrite (LHE_outside_unfold (region ev) v ev [b0; b1] eq_refl Hb).
  split.
  - intros H0 H1.
    destruct (Qeq_bool (FourVector.e b0) 0) eqn:E0;
      [apply Qeq_bool_iff in E0; contradiction|].
    destruct (Qeq_bool (FourVector.e b1) 0) eqn:E1;
      [apply Qeq_bool_iff in E1; contradiction|].
    eexists. reflexivity.
  - intros [H0|H1].
    + apply Qeq_bool_iff in H0. now rewrite H0.
    + apply Qeq_bool_iff in H1. rewrite H1.
      destruct (Qeq_bool (FourVector.e b0) 0); reflexivity.
Qed.

(** X7.  What the LHE example counts as outside lies in the rapidity gap of
    the dipole example, and at R2 > 0.4^2 from both jet axes (the first two
    outgoing bottom quarks, scaled by their energies). *)
Theorem LHE_outside_within_rapidity_gap
  (self self' : OutsideRegion.t) (v : FourVector.t) :
  LHE._outside self v = Ok true ->
  Dipole._outside self' v = true
  /\ exists ev b0 b1 rest,
       OutsideRegion.event self = Some ev
       /\ Event.outgoingBottom ev = Some (b0 :: b1 :: rest)
       /\ 0.4 ^ 2 < FourVector_R2 v (FourVector_truediv b0 (FourVector.e b0))
       /\ 0.4 ^ 2 < FourVector_R2 v (FourVector_truediv b1 (FourVector.e b1)).
Proof.
  intro H.
  destruct (OutsideRegion.event self) as [ev|] eqn:Hev;
    [|unfold LHE._outside in H; rewrite Hev in H; discriminate H].
  destruct (Event.outgoingBottom ev) as [bottoms|] eqn:Hbot;
    [|unfold LHE._outside in H; rewrite Hev in H; cbn [bind eval] in H;
      rewrite Hbot in H; discriminate H].
  rewrite (LHE_outside_unfold self v ev bottoms Hev Hbot) in H.
  destruct bottoms as [|b0 [|b1 rest]]; try discriminate H.
  { destruct (Qeq_bool (FourVector.e b0) 0); discriminate H. }
  destruct (Qeq_bool (FourVector.e b0) 0); [discriminate H|].
  destruct (Qeq_bool (FourVector.e b1) 0); [discriminate H|].
  injection H as H.
  apply andb_true_iff in H. destruct H as [H Hmin].
  apply andb_true_iff in H. destruct H as [H Hmax].
  apply andb_true_iff in H. destruct H as [Hjet1 Hjet2].
  split.
  - unfold Dipole._outside. apply andb_true_iff. split; assumption.
  - exists ev, b0, b1, rest.
    split; [reflexivity|]. split; [exact Hbot|].
    apply Qlt_bool_true in Hjet1, Hjet2. split; assumption.
Qed.

End OutsideOfEvent.

(** ** The loop as a whole *)

Section WholeLoop.
Context {L : ngl_resum} {N : numpy} {T : time}.

(** Once a first part of the file has gone through, the loop carries on
    from the state it left. *)
Lemma event_loop_app_done (a b : list Event.t) (s : LHE.state) :
  snd (LHE.event_loop a s) = None ->
  LHE.event_loop (a ++ b) s = LHE.event_loop b (fst (LHE.event_loop a s)).
Proof.
  revert s. induction a as [|ev a IH]; intros s Hdone; [reflexivity|].
  cbn [app LHE.event_loop] in *.
  destruct (LHE.loop_body ev s) as [s1 [e|]]; [discriminate Hdone|].
  now apply IH.
Qed.

Lemma isValid_true (ev : Event.t) :
  isValid ev = true <-> LHE.validEvent ev = Ok true.
Proof.
  unfold isValid. destruct (LHE.validEvent ev) as [[|]|e]; split;
    intro H; try reflexivity; discriminate H.
Qed.

(** How far the counters move. *)
Lemma event_loop_counts_from (evtFile : list Event.t) (s : LHE.state) :
  let r := LHE.event_loop evtFile s in
  exists k v,
    (v <= k <= List.length evtFile)%nat
    /\ LHE.numberEvents (fst r) = (LHE.numberEvents s + k)%nat
    /\ LHE.numberValidEvents (fst r) = (LHE.numberValidEvents s + v)%nat
    /\ (snd r = None ->
        k = List.length evtFile
        /\ v = List.length (filter isValid evtFile)).
Proof.
  revert s. induction evtFile as [|ev rest IH]; intro s; cbn zeta.
  - exists 0%nat, 0%nat. cbn. repeat split; lia.
  - cbn [LHE.event_loop].
    pose proof (loop_body_numberEvents ev s) as Hn.
    pose proof (loop_body_exn ev s) as Hexn.
    destruct (LHE.validEvent ev) as [[|]|e] eqn:Hv.
    + destruct (loop_body_valid ev s Hv) as [_ [_ [Hval _]]].
      destruct (LHE.loop_body ev s) as [s1 [e|]]; [discriminate Hexn|].
      cbn [fst] in *.
      destruct (IH s1) as [k [v [Hle [Hk [Hvv Hdone]]]]].
      exists (S k), (S v). cbn [List.length filter].
      assert (Hiv : isValid ev = true) by (now apply isValid_true).
      rewrite Hiv. cbn [List.length].
      repeat split; try lia.
      * destruct (Hdone H); lia.
      * destruct (Hdone H); lia.
    + assert (Hnv : LHE.validEvent ev <> Ok true) by (rewrite Hv; discriminate).
      destruct (loop_body_not_valid ev s Hnv) as [_ [_ [Hval _]]].
      destruct (LHE.loop_body ev s) as [s1 [e|]]; [discriminate Hexn|].
      cbn [fst] in *.
      destruct (IH s1) as [k [v [Hle [Hk [Hvv Hdone]]]]].
      exists (S k), v. cbn [List.length filter].
      assert (Hiv : isValid ev = false) by (unfold isValid; now rewrite Hv).
      rewrite Hiv.
      repeat split; try lia.
      * destruct (Hdone H); lia.
      * destruct (Hdone H); lia.
    + assert (Hnv : LHE.validEvent ev <> Ok true) by (rewrite Hv; discriminate).
      destruct (loop_body_not_valid ev s Hnv) as [_ [_ [Hval _]]].
      destruct (LHE.loop_body ev s) as [s1 [e'|]]; [|discriminate Hexn].
      cbn [fst snd] in *.
      exists 1%nat, 0%nat. cbn [List.length].
      repeat split; try lia; discriminate.
Qed.

(** X8.  From the initial state, however the loop ends, the valid events
    counted are at most the events counted, which are at most the events of
    the file; when the loop runs to its end, numberEvents is the length of
    the file and numberValidEvents the number of events judged valid. *)
Theorem event_loop_counters (evtFile : list Event.t) (seed : Rng) :
  let r := LHE.event_loop evtFile (LHE.initial seed) in
  (LHE.numberValidEvents (fst r) <= LHE.numberEvents (fst r))%nat
  /\ (LHE.numberEvents (fst r) <= List.length evtFile)%nat
  /\ (snd r = None ->
      LHE.numberEvents (fst r) = List.length evtFile
      /\ LHE.numberValidEvents (fst r) = List.length (filter isValid evtFile)).
Proof.
  intro r.
  destruct (event_loop_counts_from evtFile (LHE.initial seed))
    as [k [v [Hle [Hk [Hv Hdone]]]]].
  fold r in Hk, Hv, Hdone. cbn [LHE.initial LHE.numberEvents
    LHE.numberValidEvents Nat.add] in Hk, Hv.
  rewrite Hk, Hv. repeat split; try lia.
  - destruct (Hdone H); lia.
  - destruct (Hdone H); lia.
Qed.

(** X9.  The loop stops at the first event on which [validEvent] raises:
    the exception is that event's, the state is the one the events before it
    left, with this event counted and its weight bookkeeping done, and the
    events after it play no part. *)
Theorem event_loop_stops_at_first_exception
  (pre post : list Event.t) (ev : Event.t) (e : exn) (s : LHE.state) :
  (forall p, In p pre -> exists b, LHE.validEvent p = Ok b) ->
  LHE.validEvent ev = Exc e ->
  snd (LHE.event_loop pre s) = None
  /\ LHE.event_loop (pre ++ ev :: post) s
     = (fst (LHE.loop_body ev (fst (LHE.event_loop pre s))), Some e)
  /\ LHE.numberEvents (fst (LHE.event_loop (pre ++ ev :: post) s))
     = (LHE.numberEvents s + List.length pre + 1)%nat.
Proof.
  intros Hpre Hev.
  assert (Hdone : snd (LHE.event_loop pre s) = None).
  { clear Hev. revert s. induction pre as [|p pre IH]; intro s; [reflexivity|].
    cbn [LHE.event_loop].
    pose proof (loop_body_exn p s) as Hexn.
    destruct (Hpre p (or_introl eq_refl)) as [b Hb]. rewrite Hb in Hexn.
    destruct (LHE.loop_body p s) as [s1 [e'|]]; [discriminate Hexn|].
    apply IH. intros q Hq. apply Hpre. now right. }
  split; [exact Hdone|].
  assert (Heq : LHE.event_loop (pre ++ ev :: post) s
                = (fst (LHE.loop_body ev (fst (LHE.event_loop pre s))), Some e)).
  { rewrite (event_loop_app_done pre (ev :: post) s Hdone).
    destruct (LHE.event_loop pre s) as [s1 [e'|]]; [discriminate Hdone|].
    cbn [fst LHE.event_loop].
    pose proof (loop_body_exn ev s1) as Hexn. rewrite Hev in Hexn.
    destruct (LHE.loop_body ev s1) as [s2 [e'|]]; [|discriminate Hexn].
    cbn [snd] in Hexn. injection Hexn as ->. reflexivity. }
  split; [exact Heq|].
  rewrite Heq. cbn [fst]. rewrite loop_body_numberEvents.
  destruct (event_loop_counts_from pre s) as [k [v [_ [Hk [_ Hd]]]]].
  cbn zeta in Hk, Hd. destruct (Hd Hdone) as [-> _]. lia.
Qed.

Lemma event_loop_completes (evtFile : list Event.t) (s : LHE.state) :
  snd (LHE.event_loop evtFile s) = None
  <-> forall ev, In ev evtFile -> exists b, LHE.validEvent ev = Ok b.
Proof.
  revert s. induction evtFile as [|ev rest IH]; intro s.
  - split; [intros _ ev []|reflexivity].
  - cbn [LHE.event_loop].
    pose proof (loop_body_exn ev s) as Hexn.
    destruct (LHE.loop_body ev s) as [s1 [e|]]; cbn [snd] in Hexn.
    + split; [discriminate|].
      intro Hall. destruct (Hall ev (or_introl eq_refl)) as [b Hb].
      rewrite Hb in Hexn. discriminate Hexn.
    + rewrite IH. split.
      * intros Hrest ev' [<-|Hin]; [|now apply Hrest].
        destruct (LHE.validEvent ev) as [b|e]; [now exists b|discriminate Hexn].
      * intros Hall ev' Hin. apply Hall. now right.
Qed.

(** *** Weights *)

Lemma filter_repeat {A : Type} (f : A -> bool) (x : A) (n : nat) :
  f x = true -> filter f (repeat x n) = repeat x n.
Proof.
  intro Hx. induction n as [|n IH]; [reflexivity|].
  cbn [repeat filter]. now rewrite Hx, IH.
Qed.

Lemma warnings_repeat (s : LHE.state) (n : nat) :
  LHE.stdout s = repeat LHE.warning n -> warnings s = n.
Proof.
  unfold warnings. intros ->.
  rewrite filter_repeat by reflexivity. apply repeat_length.
Qed.

(** From a positive reference weight on, the reference stays and every
    event of another weight is answered by one warning. *)
Lemma event_loop_positive_reference (evtFile : list Event.t) (s : LHE.state) :
  0 < LHE.eventWeight s ->
  snd (LHE.event_loop evtFile s) = None ->
  LHE.eventWeight (fst (LHE.event_loop evtFile s)) = LHE.eventWeight s
  /\ LHE.stdout (fst (LHE.event_loop evtFile s))
     = LHE.stdout s
       ++ repeat LHE.warning (mismatches (LHE.eventWeight s) evtFile).
Proof.
  revert s. induction evtFile as [|ev rest IH]; intros s Hpos Hdone.
  - cbn. now rewrite app_nil_r.
  - cbn [LHE.event_loop] in *.
    pose proof (loop_body_eventWeight ev s) as Hw.
    pose proof (loop_body_stdout ev s) as Hout.
    apply Qlt_bool_true in Hpos. rewrite Hpos in Hw. rewrite Hw in Hout.
    destruct (LHE.loop_body ev s) as [s1 [e|]]; [discriminate Hdone|].
    cbn [fst] in Hw, Hout.
    assert (Hpos1 : 0 < LHE.eventWeight s1)
      by (rewrite Hw; now apply Qlt_bool_true).
    destruct (IH s1 Hpos1 Hdone) as [IHw IHout].
    rewrite IHw, IHout, Hw, Hout. split; [reflexivity|].
    unfold mismatches. cbn [filter].
    destruct (Qeq_bool (LHE.eventWeight s) (Event.weight ev)); cbn [negb].
    + reflexivity.
    + cbn [List.length repeat]. rewrite <- app_assoc. reflexivity.
Qed.

(** X12.  When the first event has a positive weight and the loop runs to
    its end, the reference weight is the first event's, the loop has printed
    one warning for each later event of another weight and nothing else; a
    file of equal weights prints nothing. *)
Theorem warnings_count_mismatches
  (ev0 : Event.t) (rest : list Event.t) (seed : Rng) (s : LHE.state) :
  0 < Event.weight ev0 ->
  LHE.event_loop (ev0 :: rest) (LHE.initial seed) = (s, None) ->
  LHE.eventWeight s = Event.weight ev0
  /\ LHE.stdout s = repeat LHE.warning (mismatches (Event.weight ev0) rest)
  /\ warnings s = mismatches (Event.weight ev0) rest
  /\ ((forall ev, In ev rest -> Event.weight ev == Event.weight ev0) ->
      LHE.stdout s = []).
Proof.
  intros Hpos Hloop.
  cbn [LHE.event_loop] in Hloop.
  assert (Hnp : ~ 0 < LHE.eventWeight (LHE.initial seed))
    by (cbn; apply Qlt_irrefl).
  destruct (loop_body_overwrites ev0 (LHE.initial seed) Hnp) as [Hw Hout].
  destruct (LHE.loop_body ev0 (LHE.initial seed)) as [s1 [e|]];
    [discriminate Hloop|].
  cbn [fst LHE.initial LHE.stdout] in Hw, Hout.
  assert (Hpos1 : 0 < LHE.eventWeight s1) by (now rewrite Hw).
  assert (Hdone : snd (LHE.event_loop rest s1) = None) by (now rewrite Hloop).
  destruct (event_loop_positive_reference rest s1 Hpos1 Hdone) as [Hw' Hout'].
  rewrite Hloop in Hw', Hout'. cbn [fst] in Hw', Hout'.
  rewrite Hout, Hw in Hout'. cbn [app] in Hout'. rewrite Hw in Hw'.
  split; [exact Hw'|]. split; [exact Hout'|].
  split; [now apply warnings_repeat|].
  intro Hall. rewrite Hout'.
  assert (Hz : mismatches (Event.weight ev0) rest = 0%nat).
  { unfold mismatches. clear - Hall.
    induction rest as [|ev rest IH]; [reflexivity|].
    cbn [filter].
    assert (E : Qeq_bool (Event.weight ev0) (Event.weight ev) = true).
    { apply Qeq_bool_iff. symmetry. apply Hall. now left. }
    rewrite E. cbn [negb]. apply IH. intros ev' Hin. apply Hall. now right. }
  now rewrite Hz.
Qed.

(** X13.  When the loop runs to its end, the weight it leaves in eventWeight,
    and that cell 8 prints last, is the weight of the first event whose
    weight is strictly positive. *)
Theorem printed_weight_is_first_positive
  (pre post : list Event.t) (ev : Event.t) (seed : Rng) (s : LHE.state) :
  (forall p, In p pre -> Event.weight p <= 0) ->
  0 < Event.weight ev ->
  LHE.event_loop (pre ++ ev :: post) (LHE.initial seed) = (s, None) ->
  LHE.eventWeight s = Event.weight ev
  /\ exists s',
       LHE.cell8 (pre ++ ev :: post) (LHE.initial seed) = (s', None)
       /\ last (LHE.stdout s') []
          = [PStr "Weight of each event:"; PFloat (Event.weight ev)].
Proof.
  intros Hpre Hpos Hloop.
  assert (Hw : LHE.eventWeight s = Event.weight ev).
  { assert (Hinit : LHE.eventWeight (LHE.initial seed) <= 0)
      by (cbn; apply Qle_refl).
    assert (Hsnd : snd (LHE.event_loop (pre ++ ev :: post) (LHE.initial seed))
                   = None) by (now rewrite Hloop).
    pose proof (proj1 (event_loop_completes _ _) Hsnd) as Hall.
    assert (Hdone : snd (LHE.event_loop pre (LHE.initial seed)) = None).
    { apply (proj2 (event_loop_completes _ _)). intros p Hp. apply Hall.
      apply in_or_app. now left. }
    destruct (event_loop_nonpositive pre (LHE.initial seed) Hinit Hpre)
      as [_ Hw1].
    pose proof Hloop as Hrest.
    rewrite (event_loop_app_done pre (ev :: post) _ Hdone) in Hrest.
    set (s1 := fst (LHE.event_loop pre (LHE.initial seed))) in *.
    cbn [LHE.event_loop] in Hrest.
    assert (Hnp : ~ 0 < LHE.eventWeight s1) by (now apply Qle_not_lt).
    destruct (loop_body_overwrites ev s1 Hnp) as [Hw2 _].
    destruct (LHE.loop_body ev s1) as [s2 [e|]]; [discriminate Hrest|].
    cbn [fst] in Hw2.
    assert (Hpos2 : 0 < LHE.eventWeight s2) by (now rewrite Hw2).
    assert (Hdone2 : snd (LHE.event_loop post s2) = None)
      by (now rewrite Hrest).
    destruct (event_loop_positive_reference post s2 Hpos2 Hdone2) as [Hw' _].
    rewrite Hrest in Hw'. cbn [fst] in Hw'. now rewrite Hw2 in Hw'. }
  split; [exact Hw|].
  unfold LHE.cell8. rewrite Hloop. eexists. split; [reflexivity|].
  unfold LHE.print. cbn [LHE.stdout LHE.eventWeight].
  rewrite last_last, Hw. reflexivity.
Qed.

End WholeLoop.

(** ** Files that raise, files without valid event, and the summary *)

Section EdgesOfTheLoop.
Context {L : ngl_resum} {N : numpy} {T : time}.

Lemma showered_none (evtFile : list Event.t) (r : Rng) :
  (forall ev, In ev evtFile -> isValid ev = false) ->
  showered evtFile r = [].
Proof.
  induction evtFile as [|ev rest IH]; intro Hall; [reflexivity|].
  cbn [showered].
  pose proof (Hall ev (or_introl eq_refl)) as Hv. unfold isValid in Hv.
  destruct (LHE.validEvent ev) as [[|]|e]; [discriminate Hv| |reflexivity].
  apply IH. intros ev' Hin. apply Hall. now right.
Qed.

(** X14.  A file without valid event: the loop leaves the accumulators at
    their initial values and [shower] unassigned, the normalisation cell
    raises ZeroDivisionError and the two display cells raise NameError. *)
Theorem no_valid_event_then_no_result
  (evtFile : list Event.t) (seed : Rng) (s : LHE.state) :
  LHE.event_loop evtFile (LHE.initial seed) = (s, None) ->
  (forall ev, In ev evtFile -> isValid ev = false) ->
  LHE.numberValidEvents s = 0%nat
  /\ LHE.fullResultLL s = Hist.init LHE.nbins LHE.tmax false
  /\ LHE.fullNGL1Loop s = 0
  /\ LHE.fullNGL2Loop s = 0
  /\ snd (LHE.cell9 s) = Some ZeroDivisionError
  /\ LHE.cell11 s = Exc NameError
  /\ LHE.cell12 s = Exc NameError.
Proof.
  intros Hloop Hall.
  destruct (event_loop_accumulates evtFile _ _ Hloop)
    as [Hn [Hh [H1 [H2 Hsh]]]].
  cbn [LHE.initial LHE.rng] in Hn, Hh, H1, H2, Hsh.
  rewrite (showered_none evtFile seed Hall) in Hn, Hh, H1, H2, Hsh.
  cbn in Hn, Hh, H1, H2, Hsh.
  repeat (split; [assumption|]).
  split; [|split].
  - unfold LHE.cell9. rewrite Hh, Hn. reflexivity.
  - unfold LHE.cell11. now rewrite Hsh.
  - unfold LHE.cell12. now rewrite Hsh.
Qed.

(** The fields of the state the shower results live in. *)
Lemma event_loop_filter (evtFile : list Event.t) (s1 s2 s1' : LHE.state) :
  LHE.rng s1 = LHE.rng s2 ->
  LHE.event_loop evtFile s1 = (s1', None) ->
  showered (filter isValid evtFile) (LHE.rng s2)
  = showered evtFile (LHE.rng s1)
  /\ snd (LHE.event_loop (filter isValid evtFile) s2) = None
  /\ LHE.rng (fst (LHE.event_loop (filter isValid evtFile) s2)) = LHE.rng s1'.
Proof.
  revert s1 s2. induction evtFile as [|ev rest IH]; intros s1 s2 Hr Hloop.
  - injection Hloop as <-. cbn. repeat split. now symmetry.
  - cbn [LHE.event_loop] in Hloop.
    pose proof (loop_body_exn ev s1) as Hexn.
    destruct (LHE.loop_body ev s1) as [t1 [e|]] eqn:Hbody;
      [discriminate Hloop|].
    cbn [snd] in Hexn. cbn [filter showered].
    destruct (LHE.validEvent ev) as [[|]|e] eqn:Hv; [| |discriminate Hexn].
    + assert (Hiv : isValid ev = true) by (unfold isValid; now rewrite Hv).
      rewrite Hiv. cbn [showered LHE.event_loop]. rewrite Hv.
      destruct (loop_body_valid ev s1 Hv) as [_ [Hr1 _]].
      destruct (loop_body_valid ev s2 Hv) as [_ [Hr2 _]].
      rewrite Hbody in Hr1. cbn [fst] in Hr1.
      pose proof (loop_body_exn ev s2) as Hexn2. rewrite Hv in Hexn2.
      destruct (LHE.loop_body ev s2) as [t2 [e|]]; [discriminate Hexn2|].
      cbn [fst] in Hr2.
      rewrite <- Hr in Hr2.
      destruct (Shower_shower ev (region ev) LHE.nsh LHE.nbins LHE.tmax
                  LHE.showerCutoff (LHE.rng s1)) as [sh r] eqn:Hrun.
      cbn [snd] in Hr1, Hr2.
      assert (Hr' : LHE.rng t1 = LHE.rng t2) by (now rewrite Hr1, Hr2).
      destruct (IH t1 t2 Hr' Hloop) as [IHs [IHd IHr]].
      rewrite <- Hr, Hrun. rewrite Hr2, Hr1 in IHs. rewrite IHs.
      repeat split; assumption.
    + assert (Hiv : isValid ev = false) by (unfold isValid; now rewrite Hv).
      rewrite Hiv.
      assert (Hnv : LHE.validEvent ev <> Ok true) by (rewrite Hv; discriminate).
      destruct (loop_body_not_valid ev s1 Hnv) as [_ [Hr1 _]].
      rewrite Hbody in Hr1. cbn [fst] in Hr1.
      assert (Hr' : LHE.rng t1 = LHE.rng s2) by (now rewrite Hr1).
      destruct (IH t1 s2 Hr' Hloop) as [IHs [IHd IHr]].
      rewrite IHs, Hr1. repeat split; assumption.
Qed.

(** X15.  The events judged invalid leave no trace in the results: the loop
    over the valid events alone ends with the same accumulators, the same
    shower object and the same state of the random source. *)
Theorem invalid_events_leave_no_trace
  (evtFile : list Event.t) (seed : Rng) (s : LHE.state) :
  LHE.event_loop evtFile (LHE.initial seed) = (s, None) ->
  exists s',
    LHE.event_loop (filter isValid evtFile) (LHE.initial seed) = (s', None)
    /\ LHE.fullResultLL s' = LHE.fullResultLL s
    /\ LHE.fullNGL1Loop s' = LHE.fullNGL1Loop s
    /\ LHE.fullNGL2Loop s' = LHE.fullNGL2Loop s
    /\ LHE.numberValidEvents s' = LHE.numberValidEvents s
    /\ LHE.shower s' = LHE.shower s
    /\ LHE.rng s' = LHE.rng s
    /\ LHE.numberEvents s' = LHE.numberValidEvents s.
Proof.
  intro Hloop.
  destruct (event_loop_filter evtFile (LHE.initial seed) (LHE.initial seed) s
              eq_refl Hloop) as [Hsame [Hdone Hrng]].
  destruct (LHE.event_loop (filter isValid evtFile) (LHE.initial seed))
    as [s' [e|]] eqn:Hloop'; [discriminate Hdone|].
  cbn [fst] in Hrng.
  destruct (event_loop_accumulates evtFile _ _ Hloop)
    as [Hn [Hh [H1 [H2 Hsh]]]].
  destruct (event_loop_accumulates _ _ _ Hloop')
    as [Hn' [Hh' [H1' [H2' Hsh']]]].
  rewrite Hsame in Hn', Hh', H1', H2', Hsh'.
  exists s'. split; [reflexivity|].
  rewrite Hn', Hh', H1', H2', Hsh', Hn, Hh, H1, H2, Hsh.
  repeat (split; [reflexivity|]). split; [exact Hrng|].
  destruct (event_loop_counts_from (filter isValid evtFile) (LHE.initial seed))
    as [k [v [_ [Hk [Hv Hd]]]]].
  rewrite Hloop' in Hk, Hv, Hd. cbn [fst snd] in Hk, Hv, Hd.
  destruct (Hd eq_refl) as [-> ->].
  assert (Hff : filter isValid (filter isValid evtFile) = filter isValid evtFile).
  { clear. induction evtFile as [|ev rest IH]; [reflexivity|].
    cbn [filter]. destruct (isValid ev) eqn:E; [|exact IH].
    cbn [filter]. now rewrite E, IH. }
  rewrite Hff in Hv. rewrite Hk, <- Hn', Hv. reflexivity.
Qed.

(** X16.  When the loop has run to its end, cell 8 prints three more
    lines, in this order: the run time (the clock read after the loop minus
    the clock read before it), the number of events of the file with the
    number judged valid, and the reference weight; it changes nothing else;
    when the loop raised, it prints nothing more. *)
Theorem cell8_prints_the_counts
  (evtFile : list Event.t) (seed : Rng) :
  match LHE.event_loop evtFile (LHE.initial seed) with
  | (s, None) =>
      exists s',
        LHE.cell8 evtFile (LHE.initial seed) = (s', None)
        /\ LHE.stdout s'
           = LHE.stdout s
             ++ [[PStr "runtime="; PFloat (time_time 1 - time_time 0);
                  PStr "sec"];
                 [PStr "Of"; PInt (List.length evtFile); PStr "events,";
                  PInt (List.length (filter isValid evtFile));
                  PStr "were valid."];
                 [PStr "Weight of each event:"; PFloat (LHE.eventWeight s)]]
        /\ LHE.fullResultLL s' = LHE.fullResultLL s
        /\ LHE.fullNGL1Loop s' = LHE.fullNGL1Loop s
        /\ LHE.fullNGL2Loop s' = LHE.fullNGL2Loop s
        /\ LHE.eventWeight s' = LHE.eventWeight s
        /\ LHE.numberEvents s' = LHE.numberEvents s
        /\ LHE.numberValidEvents s' = LHE.numberValidEvents s
        /\ LHE.shower s' = LHE.shower s
        /\ LHE.rng s' = LHE.rng s
  | (s, Some e) => LHE.cell8 evtFile (LHE.initial seed) = (s, Some e)
  end.
Proof.
  unfold LHE.cell8.
  destruct (event_loop_counts_from evtFile (LHE.initial seed))
    as [k [v [_ [Hk [Hv Hd]]]]].
  destruct (LHE.event_loop evtFile (LHE.initial seed)) as [s [e|]];
    [reflexivity|].
  cbn [fst snd LHE.initial LHE.numberEvents LHE.numberValidEvents Nat.add]
    in Hk, Hv, Hd.
  destruct (Hd eq_refl) as [-> ->].
  eexists. split; [reflexivity|].
  unfold LHE.print.
  cbn [LHE.stdout LHE.eventWeight LHE.numberEvents LHE.numberValidEvents
       LHE.fullResultLL LHE.fullNGL1Loop LHE.fullNGL2Loop LHE.shower LHE.rng].
  rewrite Hk, Hv, <- !app_assoc. cbn [app]. repeat split.
Qed.

End EdgesOfTheLoop.

(** ** Runs on the stand-in library *)

(** X3, witness: the electron-muon test event. *)
Lemma validEvent_lepton_cuts_witness :
  25 <= FourVector.eT Stub.electron /\ 20 <= FourVector.pT Stub.muon.
Proof.
  assert (Hv : LHE.validEvent (L := Stub.ngl) (N := Stub.np) (Stub.ev_emu 1)
               = Ok true) by (vm_compute; reflexivity).
  destruct (validEvent_lepton_cuts (L := Stub.ngl) (N := Stub.np)
              (Stub.ev_emu 1) Hv) as [Hel Hmu].
  split.
  - exact (proj1 (Hel Stub.electron (or_introl eq_refl))).
  - exact (proj1 (Hmu Stub.muon (or_introl eq_refl))).
Defined.

(** X4, witness: the two-muon test event. *)
Lemma validEvent_flavour_cuts_witness :
  exists l0 l1 n0 n1 b0 b1,
    chargedLeptons Stub.ev_threeNeutrinos = [l0; l1]
    /\ flavourNeutrinos Stub.ev_threeNeutrinos = [n0; n1]
    /\ Event.outgoingBottom Stub.ev_threeNeutrinos = Some [b0; b1]
    /\ 40 <= FourVector.eT (Stub.add n0 n1).
Proof.
  assert (Hv : LHE.validEvent (L := Stub.ngl) (N := Stub.np)
                 Stub.ev_threeNeutrinos = Ok true)
    by (vm_compute; reflexivity).
  destruct (validEvent_flavour_cuts (L := Stub.ngl) (N := Stub.np)
              Stub.ev_threeNeutrinos Hv)
    as (l0 & l1 & n0 & n1 & b0 & b1 & Hl & Hn & Hb & _ & Hsame).
  exists l0, l1, n0, n1, b0, b1.
  repeat (split; [assumption|]).
  exact (proj1 (Hsame eq_refl)).
Defined.

(** X6, witness: a four-vector along the x-axis, on the electron-muon
    event, whose bottom quarks have energy 60. *)
Lemma outside_total_on_valid_events_witness :
  exists b,
    OutsideRegion.outside (region (L := Stub.ngl) (Stub.ev_emu 1))
      (Stub.new 1 1 0 0) = Ok b.
Proof.
  assert (Hv : LHE.validEvent (L := Stub.ngl) (N := Stub.np) (Stub.ev_emu 1)
               = Ok true) by (vm_compute; reflexivity).
  destruct (outside_total_on_valid_events (L := Stub.ngl) (N := Stub.np)
              (Stub.ev_emu 1) (Stub.new 1 1 0 0) Hv)
    as (b0 & b1 & Hb & Hok & _).
  cbn [Stub.ev_emu Event.outgoingBottom] in Hb. injection Hb as <- <-.
  apply Hok; intro Hz; vm_compute in Hz; discriminate Hz.
Defined.

(** X7, witness: the same vector, outside for the electron-muon event. *)
Lemma LHE_outside_within_rapidity_gap_witness :
  Dipole._outside Dipole.outsideRegion0 (Stub.new 1 1 0 0) = true.
Proof.
  assert (Hout : LHE._outside (L := Stub.ngl)
                   (OutsideRegion.init (Some (Stub.ev_emu 1)))
                   (Stub.new 1 1 0 0) = Ok true)
    by (vm_compute; reflexivity).
  exact (proj1 (LHE_outside_within_rapidity_gap (L := Stub.ngl)
                  _ Dipole.outsideRegion0 _ Hout)).
Defined.

(** X9, witness: the file that raises at its second event. *)
Lemma event_loop_stops_at_first_exception_witness :
  snd (LHE.event_loop (L := Stub.ngl) (N := Stub.np) Stub.batch_raising
         Stub.start) = Some TypeError
  /\ LHE.numberEvents
       (fst (LHE.event_loop (L := Stub.ngl) (N := Stub.np) Stub.batch_raising
               Stub.start)) = 2%nat.
Proof.
  assert (Hpre : forall p, In p [Stub.ev_emu 1] ->
                   exists b, LHE.validEvent (L := Stub.ngl) (N := Stub.np) p
                             = Ok b).
  { intros p [<-|[]]. exists true. vm_compute. reflexivity. }
  assert (Hev : LHE.validEvent (L := Stub.ngl) (N := Stub.np)
                  Stub.ev_noENeutrino = Exc TypeError)
    by (vm_compute; reflexivity).
  destruct (event_loop_stops_at_first_exception (L := Stub.ngl) (N := Stub.np)
              [Stub.ev_emu 1] [Stub.ev_emu 1] Stub.ev_noENeutrino TypeError
              Stub.start Hpre Hev) as [_ [Heq Hn]].
  split.
  - change Stub.batch_raising
      with ([Stub.ev_emu 1] ++ Stub.ev_noENeutrino :: [Stub.ev_emu 1]).
    rewrite Heq. reflexivity.
  - exact Hn.
Defined.

(** X12, witness: weights 3, 3 and 5. *)
Lemma warnings_count_mismatches_witness :
  warnings (fst (LHE.event_loop (L := Stub.ngl) (N := Stub.np)
                   [Stub.ev_emu 3; Stub.ev_emu 3; Stub.ev_noTop 5] Stub.start))
  = 1%nat.
Proof.
  assert (Hpos : 0 < Event.weight (Stub.ev_emu 3)) by reflexivity.
  assert (Hloop :
    LHE.event_loop (L := Stub.ngl) (N := Stub.np)
      (Stub.ev_emu 3 :: [Stub.ev_emu 3; Stub.ev_noTop 5])
      (LHE.initial (L := Stub.ngl) 0%nat)
    = (fst (LHE.event_loop (L := Stub.ngl) (N := Stub.np)
              [Stub.ev_emu 3; Stub.ev_emu 3; Stub.ev_noTop 5] Stub.start),
       None))
    by (vm_compute; reflexivity).
  destruct (warnings_count_mismatches (L := Stub.ngl) (N := Stub.np)
              (Stub.ev_emu 3) [Stub.ev_emu 3; Stub.ev_noTop 5] 0%nat _
              Hpos Hloop) as [_ [_ [Hcount _]]].
  rewrite Hcount. reflexivity.
Defined.

(** X13, witness: weights 0, 3, 3 and 5. *)
Lemma printed_weight_is_first_positive_witness :
  LHE.eventWeight
    (fst (LHE.event_loop (L := Stub.ngl) (N := Stub.np) Stub.batch_weights
            Stub.start)) = 3.
Proof.
  assert (Hpre : forall p, In p [Stub.ev_noTop 0] -> Event.weight p <= 0).
  { intros p [<-|[]]. vm_compute. discriminate. }
  assert (Hpos : 0 < Event.weight (Stub.ev_emu 3)) by reflexivity.
  assert (Hloop :
    LHE.event_loop (L := Stub.ngl) (N := Stub.np)
      ([Stub.ev_noTop 0] ++ Stub.ev_emu 3 :: [Stub.ev_emu 3; Stub.ev_noTop 5])
      (LHE.initial (L := Stub.ngl) 0%nat)
    = (fst (LHE.event_loop (L := Stub.ngl) (N := Stub.np) Stub.batch_weights
              Stub.start), None))
    by (vm_compute; reflexivity).
  exact (proj1 (printed_weight_is_first_positive (L := Stub.ngl) (N := Stub.np)
                  (T := Stub.clock) [Stub.ev_noTop 0] [Stub.ev_emu 3; Stub.ev_noTop 5]
                  (Stub.ev_emu 3) 0%nat _ Hpre Hpos Hloop)).
Defined.

(** X14, witness: two events without top quarks. *)
Lemma no_valid_event_then_no_result_witness :
  snd (LHE.cell9
         (fst (LHE.event_loop (L := Stub.ngl) (N := Stub.np) Stub.batch_invalid
                 Stub.start))) = Some ZeroDivisionError
  /\ LHE.cell11
       (fst (LHE.event_loop (L := Stub.ngl) (N := Stub.np) Stub.batch_invalid
               Stub.start)) = Exc NameError.
Proof.
  assert (Hloop :
    LHE.event_loop (L := Stub.ngl) (N := Stub.np) Stub.batch_invalid
      (LHE.initial (L := Stub.ngl) 0%nat)
    = (fst (LHE.event_loop (L := Stub.ngl) (N := Stub.np) Stub.batch_invalid
              Stub.start), None))
    by (vm_compute; reflexivity).
  assert (Hall : forall ev, In ev Stub.batch_invalid ->
                   isValid (L := Stub.ngl) (N := Stub.np) ev = false).
  { intros ev [<-|[<-|[]]]; vm_compute; reflexivity. }
  destruct (no_valid_event_then_no_result (L := Stub.ngl) (N := Stub.np)
              Stub.batch_invalid 0%nat _ Hloop Hall)
    as [_ [_ [_ [_ [Hdiv [H11 _]]]]]].
  split; [exact Hdiv|exact H11].
Defined.

(** X15, witness: the file of three events, the second invalid. *)
Lemma invalid_events_leave_no_trace_witness :
  exists s',
    LHE.event_loop (L := Stub.ngl) (N := Stub.np)
      (filter (isValid (L := Stub.ngl) (N := Stub.np)) Stub.batch)
      (LHE.initial (L := Stub.ngl) 0%nat) = (s', None)
    /\ LHE.fullNGL1Loop s'
       = LHE.fullNGL1Loop
           (fst (LHE.event_loop (L := Stub.ngl) (N := Stub.np) Stub.batch
                   Stub.start)).
Proof.
  assert (Hloop :
    LHE.event_loop (L := Stub.ngl) (N := Stub.np) Stub.batch
      (LHE.initial (L := Stub.ngl) 0%nat)
    = (fst (LHE.event_loop (L := Stub.ngl) (N := Stub.np) Stub.batch
              Stub.start), None))
    by (vm_compute; reflexivity).
  destruct (invalid_events_leave_no_trace (L := Stub.ngl) (N := Stub.np)
              Stub.batch 0%nat _ Hloop) as [s' [Hs' [_ [H1 _]]]].
  exists s'. split; [exact Hs'|exact H1].
Defined.
